(** * Client appointments screen: classification and cancellation policy

    A shallow embedding of the logic of the client appointments screen
    (the [clientAppointmentsApi] object and the [ClientAppointmentsScreen]
    component): the fetch of a user's appointments, the ownership re-check,
    the upcoming / past partition, the choice of the next appointment, the
    48 hour cancellation window and the cancel operation.

    Conventions of the embedding.
    - A JavaScript string is a [string]; a value that may be [null] or
      [undefined] is an [option string] ([None] is [null]).
    - A [Date] is its time value: [Some t] with [t] the milliseconds since
      the epoch, or [None] for an Invalid Date, whose [getTime()] is NaN.
    - The host's local time zone is a fixed offset [LocalTZA] (milliseconds
      east of UTC), the name ECMAScript gives it; daylight saving changes
      are outside the model.
    - The data store and the notification collaborators are not part of the
      screen: the store is a list of rows with the semantics of the queries
      the screen issues, and what a call to a collaborator does (resolve or
      reject) is an input of the model. *)

From Stdlib Require Import ZArith List String Ascii Bool Lia QArith.
Import ListNotations.

Local Open Scope Z_scope.

(** ** JavaScript strings *)

Module JS.

(** [!!s] for a possibly-null string: [null], [undefined] and the empty
    string are falsy. *)
Definition truthy (s : option string) : bool :=
  match s with
  | None => false
  | Some EmptyString => false
  | Some _ => true
  end.

(** [a || d] on strings. *)
Definition or_default (s : option string) (d : string) : string :=
  match s with
  | Some (String c r) => String c r
  | _ => d
  end.

Definition code (c : ascii) : Z := Z.of_N (N_of_ascii c).

(** White space and line terminators removed by [String.prototype.trim],
    among the code units below 256: TAB, LF, VT, FF, CR, SP and NBSP. *)
Definition is_space (c : ascii) : bool :=
  let n := code c in
  ((9 <=? n) && (n <=? 13)) || (n =? 32) || (n =? 160).

Fixpoint trimStart (s : string) : string :=
  match s with
  | EmptyString => EmptyString
  | String c r => if is_space c then trimStart r else s
  end.

(** Removes trailing white space: a character is kept when something
    that is kept follows it, or when it is not white space. *)
Fixpoint trimEnd (s : string) : string :=
  match s with
  | EmptyString => EmptyString
  | String c r =>
      match trimEnd r with
      | EmptyString => if is_space c then EmptyString else String c EmptyString
      | r' => String c r'
      end
  end.

Definition trim (s : string) : string := trimEnd (trimStart s).

(** [toLowerCase] on the letters A-Z; other code units are left as they
    are. *)
Definition lower_char (c : ascii) : ascii :=
  let n := code c in
  if (65 <=? n) && (n <=? 90) then ascii_of_N (Z.to_N (n + 32)) else c.

Fixpoint toLowerCase (s : string) : string :=
  match s with
  | EmptyString => EmptyString
  | String c r => String (lower_char c) (toLowerCase r)
  end.

(** [s.split(':')]. *)
Fixpoint split_colon (s : string) : list string :=
  match s with
  | EmptyString => [EmptyString]
  | String c r =>
      if Ascii.eqb c ":"%char then EmptyString :: split_colon r
      else match split_colon r with
           | h :: t => String c h :: t
           | [] => [String c EmptyString]
           end
  end.

(** [s.padStart(2, '0')]. *)
Definition padStart2 (s : string) : string :=
  match s with
  | EmptyString => "00"
  | String c EmptyString => String "0"%char s
  | _ => s
  end.

(** [s.includes(p)]: [p] occurs in [s]. *)
Fixpoint includes (s p : string) : bool :=
  String.prefix p s ||
  match s with
  | EmptyString => false
  | String _ r => includes r p
  end.

(** The text of a template placeholder [${v}]. *)
Definition interpolate (v : option string) : string :=
  match v with
  | Some s => s
  | None => "null"
  end.

End JS.

(** ** Dates

    The part of ECMAScript's [Date] that the screen uses: the civil calendar,
    the date-time string format read by [new Date(string)], local time with
    the fixed offset, [setHours(0,0,0,0)], [setDate] and the date part of
    [toISOString()]. *)

Module JSDate.

Definition msPerDay : Z := 86400000.
Definition msPerHour : Z := 3600000.
Definition msPerMinute : Z := 60000.

Definition Day (t : Z) : Z := t / msPerDay.
Definition TimeWithinDay (t : Z) : Z := t mod msPerDay.

Definition isLeap (y : Z) : bool :=
  ((y mod 4 =? 0) && negb (y mod 100 =? 0)) || (y mod 400 =? 0).

Definition DayFromYear (y : Z) : Z :=
  365 * (y - 1970) + (y - 1969) / 4 - (y - 1901) / 100 + (y - 1601) / 400.

Definition DaysInMonth (y m : Z) : Z :=
  if m =? 2 then (if isLeap y then 29 else 28)
  else if (m =? 4) || (m =? 6) || (m =? 9) || (m =? 11) then 30
  else 31.

(** Days of the year before the first of month [m] (1 to 12). *)
Definition monthStart (y m : Z) : Z :=
  let leap := if isLeap y then 1 else 0 in
  if m =? 1 then 0
  else if m =? 2 then 31
  else if m =? 3 then 59 + leap
  else if m =? 4 then 90 + leap
  else if m =? 5 then 120 + leap
  else if m =? 6 then 151 + leap
  else if m =? 7 then 181 + leap
  else if m =? 8 then 212 + leap
  else if m =? 9 then 243 + leap
  else if m =? 10 then 273 + leap
  else if m =? 11 then 304 + leap
  else 334 + leap.

(** [MakeDay] for a month in 1..12 and any day of month: a day past the
    end of the month runs into the following ones. *)
Definition MakeDay (y m d : Z) : Z := DayFromYear y + monthStart y m + d - 1.

(** The year of a day number: the last year whose first day is not after
    it, found from an estimate that is off by one at most. *)
Definition YearFromDay (day : Z) : Z :=
  let y := 1970 + (400 * day) / 146097 in
  if day <? DayFromYear y then y - 1
  else if DayFromYear (y + 1) <=? day then y + 1
  else y.

(** The month (1 to 12) of the day numbered [diy] within year [y]. *)
Definition MonthFromYearDay (y diy : Z) : Z :=
  if diy <? monthStart y 2 then 1
  else if diy <? monthStart y 3 then 2
  else if diy <? monthStart y 4 then 3
  else if diy <? monthStart y 5 then 4
  else if diy <? monthStart y 6 then 5
  else if diy <? monthStart y 7 then 6
  else if diy <? monthStart y 8 then 7
  else if diy <? monthStart y 9 then 8
  else if diy <? monthStart y 10 then 9
  else if diy <? monthStart y 11 then 10
  else if diy <? monthStart y 12 then 11
  else 12.

(** The civil date (year, month 1..12, day of month) of a day number. *)
Definition civil (day : Z) : Z * Z * Z :=
  let y := YearFromDay day in
  let diy := day - DayFromYear y in
  let m := MonthFromYearDay y diy in
  (y, m, diy - monthStart y m + 1).

Definition YearFromTime (t : Z) : Z := fst (fst (civil (Day t))).
Definition MonthFromTime (t : Z) : Z := snd (fst (civil (Day t))).
Definition DateFromTime (t : Z) : Z := snd (civil (Day t)).

(** *** Reading digits *)

Definition digit (c : ascii) : option Z :=
  let n := JS.code c in
  if (48 <=? n) && (n <=? 57) then Some (n - 48) else None.

Definition digits2 (s : string) : option (Z * string) :=
  match s with
  | String a (String b r) =>
      match digit a, digit b with
      | Some x, Some y => Some (10 * x + y, r)
      | _, _ => None
      end
  | _ => None
  end.

Definition digits3 (s : string) : option (Z * string) :=
  match s with
  | String a r =>
      match digit a, digits2 r with
      | Some x, Some (y, r') => Some (100 * x + y, r')
      | _, _ => None
      end
  | _ => None
  end.

Definition digits4 (s : string) : option (Z * string) :=
  match digits2 s with
  | Some (x, r) =>
      match digits2 r with
      | Some (y, r') => Some (100 * x + y, r')
      | None => None
      end
  | None => None
  end.

(** *** The date-time string format

    [YYYY], [YYYY-MM] or [YYYY-MM-DD], alone or followed by [T] and
    [HH:mm], [HH:mm:ss] or [HH:mm:ss.sss], and then by nothing, [Z] or
    [+HH:mm] / [-HH:mm].  A field out of its range makes the string
    illegal.  What an engine does with a string outside the format is its
    own business in ECMAScript; here such a string gives an Invalid Date. *)

(** The calendar part: the day number and what follows it. *)
Definition parseCalendar (s : string) : option (Z * string) :=
  match digits4 s with
  | None => None
  | Some (y, r) =>
      match r with
      | String "-"%char r1 =>
          match digits2 r1 with
          | None => None
          | Some (m, r2) =>
              if negb ((1 <=? m) && (m <=? 12)) then None else
              match r2 with
              | String "-"%char r3 =>
                  match digits2 r3 with
                  | None => None
                  | Some (d, r4) =>
                      if (1 <=? d) && (d <=? DaysInMonth y m)
                      then Some (MakeDay y m d, r4) else None
                  end
              | _ => Some (MakeDay y m 1, r2)
              end
          end
      | _ => Some (MakeDay y 1 1, r)
      end
  end.

(** The time of day in milliseconds and what follows it. *)
Definition parseClock (s : string) : option (Z * string) :=
  match digits2 s with
  | None => None
  | Some (h, r) =>
      match r with
      | String ":"%char r1 =>
          match digits2 r1 with
          | None => None
          | Some (mi, r2) =>
              let fin (sec ms : Z) (rest : string) :=
                if (h <=? 24) && (mi <=? 59) && (sec <=? 59)
                   && ((h <? 24) || ((mi =? 0) && (sec =? 0) && (ms =? 0)))
                then Some (h * msPerHour + mi * msPerMinute + sec * 1000 + ms, rest)
                else None in
              match r2 with
              | String ":"%char r3 =>
                  match digits2 r3 with
                  | None => None
                  | Some (sec, r4) =>
                      match r4 with
                      | String "."%char r5 =>
                          match digits3 r5 with
                          | None => None
                          | Some (ms, r6) => fin sec ms r6
                          end
                      | _ => fin sec 0 r4
                      end
                  end
              | _ => fin 0 0 r2
              end
          end
      | _ => None
      end
  end.

(** The offset suffix: [None] when the string is illegal, [Some None] when
    there is no suffix (local time), [Some (Some o)] for an offset of [o]
    milliseconds east of UTC. *)
Definition parseOffset (s : string) : option (option Z) :=
  match s with
  | EmptyString => Some None
  | String "Z"%char EmptyString => Some (Some 0)
  | String sg r =>
      if Ascii.eqb sg "+"%char || Ascii.eqb sg "-"%char then
        match digits2 r with
        | Some (h, String ":"%char r1) =>
            match digits2 r1 with
            | Some (mi, EmptyString) =>
                if (h <=? 23) && (mi <=? 59) then
                  let o := h * msPerHour + mi * msPerMinute in
                  Some (Some (if Ascii.eqb sg "-"%char then - o else o))
                else None
            | _ => None
            end
        | _ => None
        end
      else None
  end.

Section LocalTime.

(** The offset of local time from UTC, in milliseconds. *)
Variable LocalTZA : Z.

Definition LocalTime (t : Z) : Z := t + LocalTZA.
Definition UTC (t : Z) : Z := t - LocalTZA.

(** [new Date(s).getTime()] for a string [s]: a date alone is read as
    UTC, a date and time without an offset as local time. *)
Definition parse (s : string) : option Z :=
  match parseCalendar s with
  | None => None
  | Some (day, EmptyString) => Some (day * msPerDay)
  | Some (day, String "T"%char r) =>
      match parseClock r with
      | None => None
      | Some (tod, r') =>
          match parseOffset r' with
          | None => None
          | Some None => Some (UTC (day * msPerDay + tod))
          | Some (Some o) => Some (day * msPerDay + tod - o)
          end
      end
  | Some _ => None
  end.

(** [new Date(v)] for a possibly-null [v]: [null] is converted to the
    number 0, the epoch. *)
Definition ofValue (v : option string) : option Z :=
  match v with
  | None => Some 0
  | Some s => parse s
  end.

(** [d.setHours(0, 0, 0, 0)]: midnight, local time, of the local day of
    [d]; an Invalid Date stays invalid. *)
Definition startOfLocalDay (t : Z) : Z :=
  UTC (Day (LocalTime t) * msPerDay).

Definition setHours0 (d : option Z) : option Z :=
  match d with
  | Some t => Some (startOfLocalDay t)
  | None => None
  end.

(** [d.getDate()] and [d.setDate(n)], both in local time. *)
Definition getDate (t : Z) : Z := DateFromTime (LocalTime t).

Definition setDate (t n : Z) : Z :=
  let lt := LocalTime t in
  UTC (MakeDay (YearFromTime lt) (MonthFromTime lt) n * msPerDay
       + TimeWithinDay lt).

End LocalTime.

(** *** [toISOString()] *)

Definition digitChar (n : Z) : ascii := ascii_of_N (Z.to_N (48 + n mod 10)).

Definition pad2 (n : Z) : string :=
  String (digitChar (n / 10)) (String (digitChar n) EmptyString).

Definition pad4 (n : Z) : string := (pad2 (n / 100) ++ pad2 (n mod 100))%string.

Definition pad6 (n : Z) : string := (pad2 (n / 10000) ++ pad4 (n mod 10000))%string.

(** The year as [toISOString] prints it: four digits from 0 to 9999, a
    sign and six digits otherwise. *)
Definition isoYear (y : Z) : string :=
  if (0 <=? y) && (y <=? 9999) then pad4 y
  else if y <? 0 then ("-" ++ pad6 (- y))%string
  else ("+" ++ pad6 y)%string.

(** [d.toISOString().split('T')[0]]: the UTC calendar date of [d]. *)
Definition toISODate (t : Z) : string :=
  (isoYear (YearFromTime t) ++ "-" ++ pad2 (MonthFromTime t)
     ++ "-" ++ pad2 (DateFromTime t))%string.

End JSDate.

(** ** Arrays *)

Module JSArray.

Section Sort.

Context {A : Type}.

(** [before x y]: the comparator does not put [y] strictly first. *)
Variable before : A -> A -> bool.

Fixpoint insert (x : A) (l : list A) : list A :=
  match l with
  | [] => [x]
  | y :: l' => if before x y then x :: l else y :: insert x l'
  end.

(** A stable sort: of two elements that the comparator does not
    separate, the one that came first stays first.  [Array.prototype.sort]
    is such a sort whenever the comparator is consistent. *)
Fixpoint sort (l : list A) : list A :=
  match l with
  | [] => []
  | x :: l' => insert x (sort l')
  end.

End Sort.

End JSArray.

(** ** The rows of the [appointments] table *)

Record AvailableTimeSlot : Type := mkSlot {
  id : string;
  slot_date : option string;
  slot_time : option string;
  client_name : option string;
  client_phone : option string;
  service_name : option string;
  is_available : bool
}.

(** The signed-in user of the auth store; the screen reads [user?.name] and
    [user?.phone], so the user itself may be absent. *)
Record User : Type := mkUser {
  name : option string;
  phone : option string
}.

Definition user_name (user : option User) : option string :=
  match user with Some u => name u | None => None end.

Definition user_phone (user : option User) : option string :=
  match user with Some u => phone u | None => None end.

(** ** The data store

    The table is a list of rows.  The two statements the screen sends are a
    filtered, ordered [select] and a filtered [update]; both answer with an
    [error] that is independent of how many rows matched. *)

Module Store.

Definition table : Type := list AvailableTimeSlot.

Definition opt_eqb (a : option string) (b : string) : bool :=
  match a with Some s => String.eqb s b | None => false end.

(** [.in('slot_date', dates)]. *)
Definition in_dates (dates : list string) (r : AvailableTimeSlot) : bool :=
  existsb (opt_eqb (slot_date r)) dates.

(** [client_name.ilike.%p%]: [p] occurs in the name, letter case aside. *)
Definition ilike_contains (v : option string) (p : string) : bool :=
  match v with
  | Some s => JS.includes (JS.toLowerCase s) (JS.toLowerCase p)
  | None => false
  end.

(** Ascending order of a nullable column, nulls last. *)
Definition col_compare (a b : option string) : comparison :=
  match a, b with
  | Some x, Some y => String.compare x y
  | Some _, None => Lt
  | None, Some _ => Gt
  | None, None => Eq
  end.

(** [.order('slot_date').order('slot_time')]. *)
Definition row_before (a b : AvailableTimeSlot) : bool :=
  match col_compare (slot_date a) (slot_date b) with
  | Lt => true
  | Gt => false
  | Eq => match col_compare (slot_time a) (slot_time b) with
          | Gt => false
          | _ => true
          end
  end.

(** The rows answering the query of [getUserAppointmentsForMultipleDates]:
    booked rows of the given dates, of the user when a name or a phone is
    given, by date and time. *)
Definition select_user_rows (t : table) (dates : list string)
    (userName userPhone : option string) : list AvailableTimeSlot :=
  let booked :=
    filter (fun r => in_dates dates r && negb (is_available r)) t in
  let conditions : list (AvailableTimeSlot -> bool) :=
    (if JS.truthy userName
     then [fun r => ilike_contains (client_name r)
                      (JS.trim (JS.interpolate userName))]
     else [])
    ++
    (if JS.truthy userPhone
     then [fun r => opt_eqb (client_phone r)
                      (JS.trim (JS.interpolate userPhone))]
     else []) in
  let mine :=
    match conditions with
    | [] => booked
    | _ => filter (fun r => existsb (fun c => c r) conditions) booked
    end in
  JSArray.sort row_before mine.

(** [.select('*').eq('id', slotId).single()]: the row when exactly one has
    this id, an error otherwise. *)
Definition select_single (t : table) (slotId : string)
  : option AvailableTimeSlot :=
  match filter (fun r => String.eqb (id r) slotId) t with
  | [r] => Some r
  | _ => None
  end.

Definition freed (r : AvailableTimeSlot) : AvailableTimeSlot :=
  {| id := id r;
     slot_date := slot_date r;
     slot_time := slot_time r;
     client_name := None;
     client_phone := None;
     service_name := None;
     is_available := true |}.

(** [.update({...}).eq('id', slotId).eq('is_available', false)]: every
    row with this id that is still booked is freed; the others stay. *)
Definition update_cancel (t : table) (slotId : string) : table :=
  map (fun r => if String.eqb (id r) slotId && negb (is_available r)
                then freed r else r) t.

End Store.

(** ** [clientAppointmentsApi.getUserAppointmentsForMultipleDates] *)

(** The exact test that the fetch and the screen both apply to a row. *)
Definition nameMatch (userName : option string) (slot : AvailableTimeSlot) : bool :=
  JS.truthy userName && JS.truthy (client_name slot) &&
  String.eqb (JS.toLowerCase (JS.trim (JS.interpolate (client_name slot))))
             (JS.toLowerCase (JS.trim (JS.interpolate userName))).

Definition phoneMatch (userPhone : option string) (slot : AvailableTimeSlot) : bool :=
  JS.truthy userPhone && JS.truthy (client_phone slot) &&
  String.eqb (JS.trim (JS.interpolate (client_phone slot)))
             (JS.trim (JS.interpolate userPhone)).

(** [None] is the rejected promise: the error of the query is thrown again.
    [queryError] says whether the store answers this query with an error. *)
Definition getUserAppointmentsForMultipleDates (queryError : bool)
    (t : Store.table) (dates : list string) (userName userPhone : option string)
  : option (list AvailableTimeSlot) :=
  if queryError then None
  else
    let data := Store.select_user_rows t dates userName userPhone in
    let filteredData :=
      if JS.truthy userName || JS.truthy userPhone
      then filter (fun slot => nameMatch userName slot || phoneMatch userPhone slot) data
      else data in
    Some filteredData.

(** ** The screen *)

(** The state of the component that the logic reads and writes. *)
Record ScreenState : Type := mkScreen {
  userAppointments : list AvailableTimeSlot;
  isLoading : bool;
  refreshing : bool;
  showCancelModal : bool;
  showLateCancelModal : bool;
  selectedAppointment : option AvailableTimeSlot;
  isCanceling : bool;
  alerts : list string
}.

Definition initialState : ScreenState :=
  {| userAppointments := [];
     isLoading := true;
     refreshing := false;
     showCancelModal := false;
     showLateCancelModal := false;
     selectedAppointment := None;
     isCanceling := false;
     alerts := [] |}.

Section Screen.

Variable LocalTZA : Z.

(** *** [isWithin48Hours] *)

(** The [Date] built from the date and the padded hours and minutes. *)
Definition appointmentDateTime (appointment : AvailableTimeSlot) : option Z :=
  let time := JS.or_default (slot_time appointment) "00:00" in
  let parts := JS.split_colon time in
  let hh := nth 0 parts "00"%string in
  let mm := nth 1 parts "00"%string in
  JSDate.parse LocalTZA
    (JS.interpolate (slot_date appointment) ++ "T"
       ++ JS.padStart2 hh ++ ":" ++ JS.padStart2 mm)%string.

(** [diffMs / (1000 * 60 * 60)] for a valid date.  The quotient is kept
    exact: [diffMs] is an integer and 48 is a double, so rounding the
    quotient to a double does not change on which side of 48 it is. *)
Definition deltaHours (dateTime now : Z) : Q := (dateTime - now) # 3600000.

Definition Qltb (a b : Q) : bool := negb (Qle_bool b a).

(** [now] is the value of [Date.now()].  A comparison with NaN is false. *)
Definition isWithin48Hours (appointment : AvailableTimeSlot) (now : Z) : bool :=
  if negb (JS.truthy (slot_date appointment)) then false
  else
    match appointmentDateTime appointment with
    | Some dateTime => Qltb (deltaHours dateTime now) (48 # 1)
    | None => false
    end.

(** *** [loadUserAppointments] *)

(** The values of [i] in [for (let i = -7; i <= 14; i++)]. *)
Definition loadOffsets : list Z := map (fun k => Z.of_nat k - 7) (seq 0 22).

(** The [dates] array built from [today = new Date()]. *)
Definition loadDates (today : Z) : list string :=
  map (fun i =>
         let date := JSDate.setDate LocalTZA today
                       (JSDate.getDate LocalTZA today + i) in
         JSDate.toISODate date)
      loadOffsets.

Definition stopLoading (isRefresh : bool) (st : ScreenState) : ScreenState :=
  {| userAppointments := userAppointments st;
     isLoading := if isRefresh then isLoading st else false;
     refreshing := if isRefresh then false else refreshing st;
     showCancelModal := showCancelModal st;
     showLateCancelModal := showLateCancelModal st;
     selectedAppointment := selectedAppointment st;
     isCanceling := isCanceling st;
     alerts := alerts st |}.

Definition setUserAppointments (l : list AvailableTimeSlot) (st : ScreenState)
  : ScreenState :=
  {| userAppointments := l;
     isLoading := isLoading st;
     refreshing := refreshing st;
     showCancelModal := showCancelModal st;
     showLateCancelModal := showLateCancelModal st;
     selectedAppointment := selectedAppointment st;
     isCanceling := isCanceling st;
     alerts := alerts st |}.

(** [now] is the instant of [new Date()]; a failed fetch is only logged
    and leaves the list as it was. *)
Definition loadUserAppointments (isRefresh : bool) (user : option User)
    (now : Z) (queryError : bool) (t : Store.table) (st : ScreenState)
  : ScreenState :=
  if negb (JS.truthy (user_name user)) && negb (JS.truthy (user_phone user))
  then stopLoading isRefresh st
  else
    let dates := loadDates now in
    match getUserAppointmentsForMultipleDates queryError t dates
            (user_name user) (user_phone user) with
    | Some appointments =>
        stopLoading isRefresh (setUserAppointments appointments st)
    | None => stopLoading isRefresh st
    end.

(** *** The derived lists *)

(** [today]: local midnight of the day of [now]. *)
Definition today (now : Z) : Z := JSDate.startOfLocalDay LocalTZA now.

Definition verifiedUserAppointments (user : option User)
    (appointments : list AvailableTimeSlot) : list AvailableTimeSlot :=
  if negb (JS.truthy (user_name user)) && negb (JS.truthy (user_phone user))
  then []
  else filter (fun slot => nameMatch (user_name user) slot
                           || phoneMatch (user_phone user) slot)
              appointments.

(** [new Date(slot.slot_date)] followed by [setHours(0, 0, 0, 0)]. *)
Definition appointmentDate (slot : AvailableTimeSlot) : option Z :=
  JSDate.setHours0 LocalTZA (JSDate.ofValue LocalTZA (slot_date slot)).

(** [d >= t] and [d < t] for a date [d] that may be invalid. *)
Definition date_geb (d : option Z) (t : Z) : bool :=
  match d with Some x => t <=? x | None => false end.

Definition date_ltb (d : option Z) (t : Z) : bool :=
  match d with Some x => x <? t | None => false end.

Definition upcomingAppointments (today : Z)
    (verified : list AvailableTimeSlot) : list AvailableTimeSlot :=
  filter (fun slot => date_geb (appointmentDate slot) today) verified.

Definition pastAppointments (today : Z)
    (verified : list AvailableTimeSlot) : list AvailableTimeSlot :=
  filter (fun slot => date_ltb (appointmentDate slot) today) verified.

(** *** [nextAppointment] *)

(** The [dateTime] that [nextAppointment] attaches to an item. *)
Definition nextDateTime (a : AvailableTimeSlot) : option Z :=
  JSDate.parse LocalTZA
    (JS.interpolate (slot_date a) ++ "T"
       ++ JS.or_default (slot_time a) "00:00")%string.

(** [a.dateTime.getTime() - b.dateTime.getTime()]: NaN when either date
    is invalid. *)
Definition compareDateTime (a b : AvailableTimeSlot * option Z) : option Z :=
  match snd a, snd b with
  | Some x, Some y => Some (x - y)
  | _, _ => None
  end.

(** [sort] reads a NaN from the comparator as 0. *)
Definition notAfter (a b : AvailableTimeSlot * option Z) : bool :=
  match compareDateTime a b with
  | Some v => v <=? 0
  | None => true
  end.

Definition nextAppointment (upcoming : list AvailableTimeSlot)
  : option AvailableTimeSlot :=
  match upcoming with
  | [] => None
  | _ =>
      let withDateTime := map (fun a => (a, nextDateTime a)) upcoming in
      match JSArray.sort notAfter withDateTime with
      | first :: _ => Some (fst first)
      | [] => None
      end
  end.

Definition displayedUpcomingAppointments (upcoming : list AvailableTimeSlot)
  : list AvailableTimeSlot :=
  match nextAppointment upcoming with
  | None => upcoming
  | Some next => filter (fun a => negb (String.eqb (id a) (id next))) upcoming
  end.

(** The three views of one pass over the fetched list. *)
Record Views : Type := mkViews {
  upcoming : list AvailableTimeSlot;
  past : list AvailableTimeSlot;
  next : option AvailableTimeSlot
}.

Definition classify (user : option User) (now : Z)
    (appointments : list AvailableTimeSlot) : Views :=
  let verified := verifiedUserAppointments user appointments in
  let up := upcomingAppointments (today now) verified in
  {| upcoming := up;
     past := pastAppointments (today now) verified;
     next := nextAppointment up |}.

(** *** [handleCancelAppointment] *)

Definition handleCancelAppointment (appointment : AvailableTimeSlot)
    (now : Z) (st : ScreenState) : ScreenState :=
  let within := isWithin48Hours appointment now in
  {| userAppointments := userAppointments st;
     isLoading := isLoading st;
     refreshing := refreshing st;
     showCancelModal := if within then showCancelModal st else true;
     showLateCancelModal := if within then true else showLateCancelModal st;
     selectedAppointment := Some appointment;
     isCanceling := isCanceling st;
     alerts := alerts st |}.

(** The two outcomes of the eligibility test, as the policy names them:
    the late-cancel dialog (contact the manager) or the confirm dialog. *)
Inductive Eligibility : Type := WithinWindow | Confirmable.

Definition eligibility (st : ScreenState) : option Eligibility :=
  match showLateCancelModal st, showCancelModal st with
  | true, false => Some WithinWindow
  | false, true => Some Confirmable
  | _, _ => None
  end.

End Screen.

(** ** Effects of the cancel operation

    The calls of the cancel operation act on a world: the table of the data
    store and the trace of the notifications that were sent.  A computation
    returns or throws; [await] of a rejected promise throws. *)

Module Effects.

Inductive outcome : Type := Resolved | Rejected.

(** What the collaborators do during one cancel operation. *)
Record Env : Type := mkEnv {
  selectError : bool;            (* the lookup of the row answers with an error *)
  updateError : bool;            (* the update answers with an error *)
  slotWaitlist : outcome;        (* checkWaitlistAndNotify *)
  serviceWaitlist : outcome;     (* notifyServiceWaitlistClients *)
  adminNotifier : outcome        (* notificationsApi.createAdminNotification *)
}.

Inductive Emission : Type :=
| WaitlistSlot (appointment : AvailableTimeSlot)
| WaitlistService (appointment : AvailableTimeSlot)
| AdminNotification (title content category : string).

Record World : Type := mkWorld {
  table : Store.table;
  emitted : list Emission
}.

Inductive Res (A : Type) : Type :=
| Returned (a : A)
| Thrown.
Arguments Returned {A} a.
Arguments Thrown {A}.

Definition M (A : Type) : Type := World -> Res A * World.

Definition ret {A} (a : A) : M A := fun w => (Returned a, w).

Definition bind {A B} (m : M A) (k : A -> M B) : M B :=
  fun w => match m w with
           | (Returned a, w') => k a w'
           | (Thrown, w') => (Thrown, w')
           end.

(** [try { m } catch { h }]. *)
Definition tryCatch {A} (m : M A) (h : M A) : M A :=
  fun w => match m w with
           | (Returned a, w') => (Returned a, w')
           | (Thrown, w') => h w'
           end.

(** A call to a notification collaborator: the call is made, and it
    resolves or rejects. *)
Definition emit (e : Emission) (o : outcome) : M unit :=
  fun w =>
    let w' := {| table := table w; emitted := emitted w ++ [e] |} in
    match o with
    | Resolved => (Returned tt, w')
    | Rejected => (Thrown, w')
    end.

(** [await supabase...single()]: the [{ data, error }] of the lookup. *)
Definition selectSingle (env : Env) (slotId : string)
  : M (option AvailableTimeSlot * bool) :=
  fun w =>
    if selectError env then (Returned (None, true), w)
    else match Store.select_single (table w) slotId with
         | Some r => (Returned (Some r, false), w)
         | None => (Returned (None, true), w)
         end.

(** [await supabase...update(...)]: the [error] of the update.  An update
    that matches no row is not an error. *)
Definition updateCancel (env : Env) (slotId : string) : M bool :=
  fun w =>
    if updateError env then (Returned true, w)
    else (Returned false,
          {| table := Store.update_cancel (table w) slotId;
             emitted := emitted w |}).

End Effects.

Import Effects.

Declare Scope eff_scope.
Delimit Scope eff_scope with eff.
Notation "x <- m ;; k" := (Effects.bind m (fun x => k))
  (at level 61, m at next level, right associativity) : eff_scope.
Notation "m ;;; k" := (Effects.bind m (fun _ => k))
  (at level 61, right associativity) : eff_scope.

(** ** [clientAppointmentsApi.cancelAppointment] *)

Definition cancelAppointment (env : Env) (slotId : string) : M bool :=
  tryCatch
    (fetched <- selectSingle env slotId ;;
     let appointmentData := fst fetched in
     let fetchError := snd fetched in
     if fetchError then ret false
     else
       error <- updateCancel env slotId ;;
       if error then ret false
       else
         match appointmentData with
         | Some data =>
             emit (WaitlistSlot data) (slotWaitlist env) ;;;
             emit (WaitlistService data) (serviceWaitlist env)
         | None => ret tt
         end ;;;
         ret true)%eff
    (ret false).

(** ** [confirmCancelAppointment] *)

Definition dquote : string := String (ascii_of_nat 34) EmptyString.

Definition cancelTitle : string := "ביטול תור".

Definition cancelContent (user : option User) (selected : AvailableTimeSlot)
  : string :=
  let canceledBy :=
    JS.or_default (user_name user) (JS.or_default (client_name selected) "לקוח") in
  let canceledPhone :=
    JS.or_default (user_phone user) (JS.or_default (client_phone selected) "") in
  let serviceName := JS.or_default (service_name selected) "שירות" in
  (canceledBy ++ " (" ++ canceledPhone ++ ") ביטל/ה תור ל" ++ dquote
     ++ serviceName ++ dquote ++ " בתאריך " ++ JS.interpolate (slot_date selected)
     ++ " בשעה " ++ JS.interpolate (slot_time selected))%string.

Definition setIsCanceling (b : bool) (st : ScreenState) : ScreenState :=
  {| userAppointments := userAppointments st;
     isLoading := isLoading st;
     refreshing := refreshing st;
     showCancelModal := showCancelModal st;
     showLateCancelModal := showLateCancelModal st;
     selectedAppointment := selectedAppointment st;
     isCanceling := b;
     alerts := alerts st |}.

(** The updates of the success branch: the row leaves the list, the dialog
    closes, the selection is dropped. *)
Definition removeCanceled (selected : AvailableTimeSlot) (st : ScreenState)
  : ScreenState :=
  {| userAppointments :=
       filter (fun apt => negb (String.eqb (id apt) (id selected)))
              (userAppointments st);
     isLoading := isLoading st;
     refreshing := refreshing st;
     showCancelModal := false;
     showLateCancelModal := showLateCancelModal st;
     selectedAppointment := None;
     isCanceling := isCanceling st;
     alerts := alerts st |}.

Definition alert (message : string) (st : ScreenState) : ScreenState :=
  {| userAppointments := userAppointments st;
     isLoading := isLoading st;
     refreshing := refreshing st;
     showCancelModal := showCancelModal st;
     showLateCancelModal := showLateCancelModal st;
     selectedAppointment := selectedAppointment st;
     isCanceling := isCanceling st;
     alerts := alerts st ++ [message] |}.

Definition couldNotCancel : string := "לא ניתן היה לבטל את התור. אנא נסה שוב.".
Definition cancelFailed : string := "אירעה שגיאה בביטול התור. אנא נסה שוב.".

(** The state of the screen and the world after the operation; a failure
    is reported to the user by an alert. *)
Definition confirmCancelAppointment (env : Env) (user : option User)
    (st : ScreenState) (w : World) : ScreenState * World :=
  match selectedAppointment st with
  | None => (st, w)
  | Some selected =>
      let st1 := setIsCanceling true st in
      match cancelAppointment env (id selected) w with
      | (Returned true, w1) =>
          let st2 := removeCanceled selected st1 in
          (* createAdminNotification(...).catch(() => {}) *)
          let w2 :=
            snd (tryCatch
                   (emit (AdminNotification cancelTitle
                            (cancelContent user selected) "system")
                         (adminNotifier env))
                   (ret tt) w1) in
          (setIsCanceling false st2, w2)
      | (Returned false, w1) =>
          (setIsCanceling false (alert couldNotCancel st1), w1)
      | (Thrown, w1) =>
          (setIsCanceling false (alert cancelFailed st1), w1)
      end
  end.

(** ** The states the screen can be in

    The list of appointments starts empty and is only ever replaced by the
    result of a fetch or filtered by a successful cancel; the store, the
    user, the clock and the collaborators may be anything at each step. *)

Inductive reachable (LocalTZA : Z) : ScreenState -> Prop :=
| reach_init : reachable LocalTZA initialState
| reach_load : forall st isRefresh user now queryError t,
    reachable LocalTZA st ->
    reachable LocalTZA
      (loadUserAppointments LocalTZA isRefresh user now queryError t st)
| reach_handle : forall st appointment now,
    reachable LocalTZA st ->
    In appointment (userAppointments st) ->
    reachable LocalTZA (handleCancelAppointment LocalTZA appointment now st)
| reach_confirm : forall st env user w,
    reachable LocalTZA st ->
    reachable LocalTZA (fst (confirmCancelAppointment env user st w)).

(** ** The ownership rule, in the words of the specification

    A field is present when it is neither null nor empty.  A record belongs
    to an identity when its name, trimmed and without regard to case, is the
    identity's name, or its phone, trimmed, is the identity's phone. *)

Definition present (v : option string) (s : string) : Prop :=
  v = Some s /\ s <> EmptyString.

Definition belongsTo (user : option User) (r : AvailableTimeSlot) : Prop :=
  (exists cn n, present (client_name r) cn /\ present (user_name user) n /\
                JS.toLowerCase (JS.trim cn) = JS.toLowerCase (JS.trim n))
  \/
  (exists cp p, present (client_phone r) cp /\ present (user_phone user) p /\
                JS.trim cp = JS.trim p).

Definition noIdentity (user : option User) : Prop :=
  JS.truthy (user_name user) = false /\ JS.truthy (user_phone user) = false.

(** The text of the UTC calendar date of a day number. *)
Definition isoDateOfDay (day : Z) : string :=
  JSDate.toISODate (day * JSDate.msPerDay).

(** An instant whose window of dates lies in the years 0 to 9999, which
    [toISOString] prints with four digits. *)
Definition fourDigitYears (now : Z) : Prop :=
  JSDate.DayFromYear 0 <= JSDate.Day now - 7 /\
  JSDate.Day now + 14 < JSDate.DayFromYear 10000.

(** The statement of C1 as the specification has it: a cancel of a record
    that is free already reports failure and leaves the list alone. *)
Definition claimed_failure_on_free_record (env : Env) (user : option User)
    (st : ScreenState) (w : World) (selected : AvailableTimeSlot) : Prop :=
  fst (cancelAppointment env (id selected) w) = Returned false /\
  userAppointments (fst (confirmCancelAppointment env user st w))
    = userAppointments st.

(** ** Scenarios *)

Module Scenario.

Local Open Scope string_scope.

(** A zone two hours east of UTC. *)
Definition israel : Z := 2 * JSDate.msPerHour.

(** 2024-01-01T00:00 in that zone. *)
Definition newYear : Z := 1704060000000.

(** 2024-01-10T00:30 in that zone, which is 2024-01-09T22:30Z. *)
Definition afterMidnight : Z := 1704839400000.

Definition dana : option User :=
  Some {| name := Some "Dana Cohen"; phone := Some "0501234567" |}.

Definition nobody : option User :=
  Some {| name := Some ""; phone := None |}.

Definition danaSlot (i d : string) (t : option string) : AvailableTimeSlot :=
  {| id := i; slot_date := Some d; slot_time := t;
     client_name := Some " dana cohen"; client_phone := None;
     service_name := Some "Gel"; is_available := false |}.

Definition booked : AvailableTimeSlot := danaSlot "a1" "2024-01-05" (Some "10:00").

(** The screen after a load of [booked] and a tap on its cancel button. *)
Definition loaded : ScreenState :=
  loadUserAppointments israel false dana newYear false [booked] initialState.

Definition selected : ScreenState :=
  handleCancelAppointment israel booked newYear loaded.

(** The store after somebody else freed the row. *)
Definition freedWorld : World :=
  {| table := [Store.freed booked]; emitted := [] |}.

Definition bookedWorld : World := {| table := [booked]; emitted := [] |}.

Definition allFine : Env :=
  {| selectError := false; updateError := false; slotWaitlist := Resolved;
     serviceWaitlist := Resolved; adminNotifier := Resolved |}.

Definition slotWaitlistRejects : Env :=
  {| selectError := false; updateError := false; slotWaitlist := Rejected;
     serviceWaitlist := Resolved; adminNotifier := Resolved |}.

Definition serviceWaitlistRejects : Env :=
  {| selectError := false; updateError := false; slotWaitlist := Resolved;
     serviceWaitlist := Rejected; adminNotifier := Resolved |}.

(** Two appointments of one day, the earlier one with an hour of one
    digit. *)
Definition atTen : AvailableTimeSlot := danaSlot "b" "2024-01-05" (Some "10:00").
Definition atHalfPastNine : AvailableTimeSlot :=
  danaSlot "a" "2024-01-05" (Some "9:30").

(** Appointments 48 hours, one minute less, and 36 hours after [newYear],
    and one without a date. *)
Definition in48h : AvailableTimeSlot := danaSlot "c" "2024-01-03" (Some "0:00").
Definition in47h59 : AvailableTimeSlot := danaSlot "d" "2024-01-02" (Some "23:59:59").
Definition in36h : AvailableTimeSlot := danaSlot "e" "2024-01-02" (Some "12:00").
Definition undated : AvailableTimeSlot :=
  {| id := "f"; slot_date := None; slot_time := Some "12:00";
     client_name := Some "Dana Cohen"; client_phone := None;
     service_name := None; is_available := false |}.

(** Appointments 8 days before and 14 days after 2024-01-10. *)
Definition eightDaysAgo : AvailableTimeSlot := danaSlot "g" "2024-01-02" (Some "10:00").
Definition inFourteenDays : AvailableTimeSlot := danaSlot "h" "2024-01-24" (Some "10:00").

Definition lateNightLoad : ScreenState :=
  loadUserAppointments israel false dana afterMidnight false
    [eightDaysAgo; inFourteenDays] initialState.

End Scenario.

(** ** [formatTime] *)

(** The time as the cards show it: hours and minutes padded to two digits,
    the text as it is when it has no colon, nothing when it is missing. *)
Definition formatTime (timeString : option string) : string :=
  if negb (JS.truthy timeString) then EmptyString
  else
    let s := JS.interpolate timeString in
    let parts := JS.split_colon s in
    if (2 <=? List.length parts)%nat
    then (JS.padStart2 (nth 0 parts EmptyString) ++ ":"
            ++ JS.padStart2 (nth 1 parts EmptyString))%string
    else s.

(** ** The manager's phone *)

Definition isDigit (c : ascii) : bool :=
  let n := JS.code c in (48 <=? n) && (n <=? 57).

(** [phone.replace(/\D/g, '')]. *)
Fixpoint stripNonDigits (s : string) : string :=
  match s with
  | EmptyString => EmptyString
  | String c r => if isDigit c then String c (stripNonDigits r)
                  else stripNonDigits r
  end.

(** [s.slice(1)]. *)
Definition slice1 (s : string) : string :=
  match s with
  | EmptyString => EmptyString
  | String _ r => r
  end.

(** The number as [loadManagerPhone] stores it: digits only, a leading 0
    of a number of nine digits or more replaced by 972. *)
Definition normalizeManagerPhone (phone : string) : string :=
  let numeric := stripNonDigits phone in
  if String.prefix "0" numeric && (9 <=? String.length numeric)%nat
  then ("972" ++ slice1 numeric)%string
  else if negb (String.prefix "972" numeric) then numeric
  else numeric.

(** What the query for the first admin user with a phone does: it throws,
    or it answers with an error flag and with [data?.phone]. *)
Inductive ManagerQuery : Type :=
| ManagerQueryThrows
| ManagerQueryAnswers (error : bool) (phone : option string).

(** [loadManagerPhone], as an update of the [managerPhone] state. *)
Definition loadManagerPhone (q : ManagerQuery) (managerPhone : option string)
  : option string :=
  match q with
  | ManagerQueryThrows => None
  | ManagerQueryAnswers error phone =>
      if negb error && JS.truthy phone
      then Some (normalizeManagerPhone (JS.interpolate phone))
      else managerPhone
  end.

(** The state after the loads of a list of queries, oldest first; the state
    starts as [null]. *)
Definition managerPhoneAfter (qs : list ManagerQuery) : option string :=
  fold_left (fun mp q => loadManagerPhone q mp) qs None.

(** ** [contactManagerOnWhatsApp] *)

Inductive ScreenAction : Type :=
| OpenedURL (url : string)
| Alerted (message : string).

(** What [Linking] does: [canOpenURL] resolves to a boolean or rejects
    ([None]); [openURL] resolves or rejects. *)
Record LinkingEnv : Type := mkLinking {
  canOpenURL : option bool;
  openURL : outcome
}.

Definition managerUnavailable : string := "מספר המנהל לא זמין כרגע".
Definition cannotOpenWhatsApp : string := "לא ניתן לפתוח את וואטסאפ במכשיר זה".

Section WhatsApp.

(** [encodeURIComponent] is left abstract. *)
Variable encodeURIComponent : string -> string.

Definition appUrl (phone message : string) : string :=
  ("whatsapp://send?phone=" ++ phone ++ "&text=" ++ encodeURIComponent message)%string.

Definition webUrl (phone message : string) : string :=
  ("https://wa.me/" ++ phone ++ "?text=" ++ encodeURIComponent message)%string.

(** The calls to [Linking.openURL] and to [Alert.alert], in order. *)
Definition contactManagerOnWhatsApp (managerPhone : option string)
    (message : string) (env : LinkingEnv) : list ScreenAction :=
  if negb (JS.truthy managerPhone) then [Alerted managerUnavailable]
  else
    let phone := JS.interpolate managerPhone in
    match canOpenURL env with
    | None => [Alerted cannotOpenWhatsApp]
    | Some canOpen =>
        let url := if canOpen then appUrl phone message
                   else webUrl phone message in
        match openURL env with
        | Resolved => [OpenedURL url]
        | Rejected => [OpenedURL url; Alerted cannotOpenWhatsApp]
        end
    end.

End WhatsApp.

(** ** Further scenarios *)

Module Cases.

Local Open Scope string_scope.

Definition twoHoursEast : Z := 2 * JSDate.msPerHour.

Definition client : option User :=
  Some {| name := Some "Noa Levi"; phone := Some "0521112233" |}.

Definition slotOf (i d t : string) (n : option string) (p : option string)
  : AvailableTimeSlot :=
  {| id := i; slot_date := Some d; slot_time := Some t;
     client_name := n; client_phone := p;
     service_name := Some "Manicure"; is_available := false |}.

Definition morning : AvailableTimeSlot :=
  slotOf "m" "2024-03-10" "09:00:00" (Some "Noa Levi") None.
Definition noon : AvailableTimeSlot :=
  slotOf "n" "2024-03-10" "12:00:00" (Some " noa levi ") None.
Definition evening : AvailableTimeSlot :=
  slotOf "e" "2024-03-12" "18:30:00" None (Some "0521112233").
Definition lastWeek : AvailableTimeSlot :=
  slotOf "w" "2024-03-01" "10:00:00" (Some "NOA LEVI") None.

(** 2024-03-05T08:00 two hours east of UTC. *)
Definition fifthOfMarch : Z := 1709618400000.

Definition fineLinking : LinkingEnv :=
  {| canOpenURL := Some true; openURL := Resolved |}.

Definition fine : Env :=
  {| selectError := false; updateError := false; slotWaitlist := Resolved;
     serviceWaitlist := Resolved; adminNotifier := Rejected |}.

Definition lookupFails : Env :=
  {| selectError := true; updateError := false; slotWaitlist := Resolved;
     serviceWaitlist := Resolved; adminNotifier := Resolved |}.

End Cases.

(** A text without a colon. *)
Fixpoint colonFree (s : string) : bool :=
  match s with
  | EmptyString => true
  | String c r => negb (Ascii.eqb c ":"%char) && colonFree r
  end.

(** The identity filter of the query, as a test on one row: with a name or
    a phone, the name pattern or the phone equality; without, nothing. *)
Definition serverFilter (n p : option string) (r : AvailableTimeSlot) : bool :=
  if JS.truthy n || JS.truthy p
  then (JS.truthy n
        && Store.ilike_contains (client_name r) (JS.trim (JS.interpolate n)))
       || (JS.truthy p
           && Store.opt_eqb (client_phone r) (JS.trim (JS.interpolate p)))
  else true.

(** * Properties *)

(** ** Sorting *)

Section SortFacts.

Context {A : Type}.
Variable before : A -> A -> bool.

Lemma insert_In (x y : A) (l : list A) :
  In y (JSArray.insert before x l) <-> y = x \/ In y l.
Proof.
  induction l as [|z l IH]; simpl.
  - intuition.
  - destruct (before x z); simpl.
    + intuition.
    + rewrite IH. intuition.
Qed.

Lemma sort_In (y : A) (l : list A) :
  In y (JSArray.sort before l) <-> In y l.
Proof.
  induction l as [|x l IH]; simpl.
  - reflexivity.
  - rewrite insert_In, IH. intuition.
Qed.

Lemma insert_not_nil (x : A) (l : list A) : JSArray.insert before x l <> [].
Proof. destruct l as [|z l]; simpl; [|destruct (before x z)]; discriminate. Qed.

Lemma sort_nil_inv (l : list A) : JSArray.sort before l = [] -> l = [].
Proof.
  destruct l as [|x l]; simpl; [reflexivity|].
  intros H. exfalso. exact (insert_not_nil _ _ H).
Qed.

(** With a key that the comparator follows, the head of the sorted list
    has the least key. *)
Variable key : A -> Z.

Lemma sort_head_least (l : list A) :
  (forall x y, In x l -> In y l -> before x y = (key x <=? key y)) ->
  forall h r, JSArray.sort before l = h :: r ->
  forall y, In y l -> key h <= key y.
Proof.
  induction l as [|a l IH]; intros Hb h r Hs y Hy.
  - destruct Hy.
  - simpl in Hs.
    assert (Hb' : forall x y, In x l -> In y l -> before x y = (key x <=? key y))
      by (intros; apply Hb; simpl; auto).
    specialize (IH Hb').
    destruct (JSArray.sort before l) as [|h0 r0] eqn:E.
    + apply sort_nil_inv in E. subst l. simpl in Hs.
      injection Hs as <- _. destruct Hy as [<-|[]]. lia.
    + assert (Hh0 : In h0 l) by (apply sort_In; rewrite E; simpl; auto).
      specialize (IH h0 r0 eq_refl).
      simpl in Hs. rewrite Hb in Hs by (simpl; auto).
      destruct (key a <=? key h0) eqn:C.
      * injection Hs as <- _. apply Z.leb_le in C.
        destruct Hy as [<-|Hy]; [lia|]. specialize (IH y Hy). lia.
      * injection Hs as <- _. apply Z.leb_gt in C.
        destruct Hy as [<-|Hy]; [lia|]. exact (IH y Hy).
Qed.

End SortFacts.

(** ** The ownership filter *)

Lemma truthy_present (v : option string) :
  JS.truthy v = true <-> exists s, present v s.
Proof.
  unfold present. destruct v as [[|c r]|]; simpl; split.
  - discriminate.
  - intros [s [H Hn]]. injection H as <-. congruence.
  - intros _. eexists. split; [reflexivity|discriminate].
  - reflexivity.
  - discriminate.
  - intros [s [H _]]. discriminate.
Qed.

Lemma present_interpolate (v : option string) (s : string) :
  present v s -> JS.interpolate v = s /\ JS.truthy v = true.
Proof.
  intros [-> Hn]. split; [reflexivity|].
  destruct s; [congruence|reflexivity].
Qed.

Lemma nameMatch_spec (n : option string) (r : AvailableTimeSlot) :
  nameMatch n r = true <->
  exists cn m, present (client_name r) cn /\ present n m /\
               JS.toLowerCase (JS.trim cn) = JS.toLowerCase (JS.trim m).
Proof.
  unfold nameMatch. rewrite !andb_true_iff, String.eqb_eq, !truthy_present.
  split.
  - intros [[[m Hm] [cn Hcn]] E].
    exists cn, m. repeat split; try apply Hcn; try apply Hm.
    destruct (present_interpolate _ _ Hm) as [<- _].
    destruct (present_interpolate _ _ Hcn) as [<- _]. exact E.
  - intros (cn & m & Hcn & Hm & E).
    destruct (present_interpolate _ _ Hm) as [Em _].
    destruct (present_interpolate _ _ Hcn) as [Ecn _].
    rewrite Em, Ecn. eauto.
Qed.

Lemma phoneMatch_spec (p : option string) (r : AvailableTimeSlot) :
  phoneMatch p r = true <->
  exists cp q, present (client_phone r) cp /\ present p q /\
               JS.trim cp = JS.trim q.
Proof.
  unfold phoneMatch. rewrite !andb_true_iff, String.eqb_eq, !truthy_present.
  split.
  - intros [[[q Hq] [cp Hcp]] E].
    exists cp, q. repeat split; try apply Hcp; try apply Hq.
    destruct (present_interpolate _ _ Hq) as [<- _].
    destruct (present_interpolate _ _ Hcp) as [<- _]. exact E.
  - intros (cp & q & Hcp & Hq & E).
    destruct (present_interpolate _ _ Hq) as [Eq _].
    destruct (present_interpolate _ _ Hcp) as [Ecp _].
    rewrite Eq, Ecp. eauto.
Qed.

Lemma owns_belongsTo (user : option User) (r : AvailableTimeSlot) :
  nameMatch (user_name user) r || phoneMatch (user_phone user) r = true
  <-> belongsTo user r.
Proof.
  unfold belongsTo. rewrite orb_true_iff, nameMatch_spec, phoneMatch_spec.
  reflexivity.
Qed.

Lemma belongsTo_identity (user : option User) (r : AvailableTimeSlot) :
  belongsTo user r -> ~ noIdentity user.
Proof.
  intros [(cn & n & _ & Hn & _)|(cp & p & _ & Hp & _)] [H1 H2].
  - apply present_interpolate in Hn. destruct Hn as [_ Hn]. congruence.
  - apply present_interpolate in Hp. destruct Hp as [_ Hp]. congruence.
Qed.

Lemma verified_In (user : option User) (apps : list AvailableTimeSlot)
    (r : AvailableTimeSlot) :
  In r (verifiedUserAppointments user apps) <-> In r apps /\ belongsTo user r.
Proof.
  unfold verifiedUserAppointments.
  destruct (negb (JS.truthy (user_name user)) && negb (JS.truthy (user_phone user)))
    eqn:E.
  - apply andb_true_iff in E. destruct E as [E1 E2].
    apply negb_true_iff in E1, E2.
    split; [intros []|]. intros [_ Hb].
    exact (belongsTo_identity _ _ Hb (conj E1 E2)).
  - rewrite filter_In, owns_belongsTo. reflexivity.
Qed.

(** ** The fetch *)

Lemma select_user_rows_In (t : Store.table) (dates : list string)
    (n p : option string) (r : AvailableTimeSlot) :
  In r (Store.select_user_rows t dates n p) ->
  In r t /\ Store.in_dates dates r = true /\ is_available r = false.
Proof.
  unfold Store.select_user_rows. rewrite sort_In.
  set (booked := filter _ t).
  assert (Hb : In r booked ->
               In r t /\ Store.in_dates dates r = true /\ is_available r = false).
  { unfold booked. rewrite filter_In, andb_true_iff, negb_true_iff. tauto. }
  destruct (_ ++ _); [exact Hb|].
  rewrite filter_In. tauto.
Qed.

Lemma fetched_In (queryError : bool) (t : Store.table) (dates : list string)
    (n p : option string) (l : list AvailableTimeSlot) (r : AvailableTimeSlot) :
  getUserAppointmentsForMultipleDates queryError t dates n p = Some l ->
  In r l ->
  In r t /\ Store.in_dates dates r = true /\ is_available r = false.
Proof.
  unfold getUserAppointmentsForMultipleDates.
  destruct queryError; [discriminate|].
  intros H. injection H as <-.
  destruct (JS.truthy n || JS.truthy p).
  - rewrite filter_In. intros [H _]. exact (select_user_rows_In _ _ _ _ _ H).
  - apply select_user_rows_In.
Qed.

(** Every row that the screen holds was fetched as a booked row. *)
Lemma reachable_booked (LocalTZA : Z) (st : ScreenState) :
  reachable LocalTZA st ->
  forall r, In r (userAppointments st) -> is_available r = false.
Proof.
  induction 1 as [|st isRefresh user now qe t _ IH|st a now _ IH _
                  |st env user w _ IH]; intros r Hr.
  - destruct Hr.
  - unfold loadUserAppointments in Hr.
    destruct (negb _ && negb _).
    + destruct isRefresh; simpl in Hr; auto.
    + destruct (getUserAppointmentsForMultipleDates _ _ _ _ _) as [l|] eqn:E.
      * assert (Hl : In r l) by (destruct isRefresh; exact Hr).
        exact (proj2 (proj2 (fetched_In _ _ _ _ _ _ _ E Hl))).
      * destruct isRefresh; simpl in Hr; auto.
  - simpl in Hr. auto.
  - unfold confirmCancelAppointment in Hr.
    destruct (selectedAppointment st) as [sel|]; [|auto].
    destruct (cancelAppointment env (id sel) w) as [[[|]|] w1]; simpl in Hr; auto.
    apply filter_In in Hr. destruct Hr as [Hr _]. auto.
Qed.

(** ** The next appointment *)

Lemma nextAppointment_In (LocalTZA : Z) (l : list AvailableTimeSlot)
    (r : AvailableTimeSlot) :
  nextAppointment LocalTZA l = Some r -> In r l.
Proof.
  unfold nextAppointment. destruct l as [|a l]; [discriminate|].
  set (w := map _ (a :: l)).
  destruct (JSArray.sort _ w) as [|first rest] eqn:E; [discriminate|].
  intros H. injection H as <-.
  assert (Hin : In first w) by (apply (sort_In (notAfter)); rewrite E; simpl; auto).
  unfold w in Hin. apply in_map_iff in Hin.
  destruct Hin as (x & <- & Hx). exact Hx.
Qed.

Lemma nextAppointment_None (LocalTZA : Z) (l : list AvailableTimeSlot) :
  nextAppointment LocalTZA l = None <-> l = [].
Proof.
  split; [|intros ->; reflexivity].
  unfold nextAppointment. destruct l as [|a l]; [reflexivity|].
  destruct (JSArray.sort _ _) eqn:E; [|discriminate].
  apply sort_nil_inv in E. discriminate.
Qed.

(** For a list whose date-times are all valid, the next appointment is one
    of the least date-time. *)
Lemma nextAppointment_least (LocalTZA : Z) (l : list AvailableTimeSlot) :
  (forall a, In a l -> nextDateTime LocalTZA a <> None) ->
  forall r, nextAppointment LocalTZA l = Some r ->
  exists tr, nextDateTime LocalTZA r = Some tr /\
  forall a, In a l ->
  exists ta, nextDateTime LocalTZA a = Some ta /\ tr <= ta.
Proof.
  intros Hv r Hr.
  pose proof (nextAppointment_In _ _ _ Hr) as Hin.
  unfold nextAppointment in Hr. destruct l as [|a0 l0]; [discriminate|].
  set (l := a0 :: l0) in *.
  set (w := map (fun a => (a, nextDateTime LocalTZA a)) l) in *.
  set (key := fun x : AvailableTimeSlot * option Z =>
                match snd x with Some t => t | None => 0 end).
  destruct (JSArray.sort notAfter w) as [|first rest] eqn:E; [discriminate|].
  injection Hr as <-.
  assert (Hw : forall x, In x w -> exists t, snd x = Some t).
  { intros x Hx. unfold w in Hx. apply in_map_iff in Hx.
    destruct Hx as (a & <- & Ha). simpl.
    destruct (nextDateTime LocalTZA a) eqn:Ea; [eauto|].
    exfalso. exact (Hv a Ha Ea). }
  assert (Hb : forall x y, In x w -> In y w ->
                           notAfter x y = (key x <=? key y)).
  { intros x y Hx Hy. destruct (Hw x Hx) as [tx Ex], (Hw y Hy) as [ty Ey].
    unfold notAfter, compareDateTime, key. rewrite Ex, Ey.
    destruct (tx - ty <=? 0) eqn:C1, (tx <=? ty) eqn:C2; try reflexivity;
      [apply Z.leb_le in C1; apply Z.leb_gt in C2
      |apply Z.leb_gt in C1; apply Z.leb_le in C2]; lia. }
  pose proof (sort_head_least notAfter key w Hb first rest E) as Hleast.
  assert (Hf : In first w) by (apply (sort_In notAfter); rewrite E; simpl; auto).
  destruct (Hw first Hf) as [tr Etr].
  assert (Efirst : nextDateTime LocalTZA (fst first) = Some tr).
  { unfold w in Hf. apply in_map_iff in Hf. destruct Hf as (x & <- & _).
    exact Etr. }
  exists tr. split; [exact Efirst|].
  intros a Ha.
  assert (Hx : In (a, nextDateTime LocalTZA a) w)
    by (unfold w; apply in_map_iff; eauto).
  destruct (Hw _ Hx) as [ta Eta]. simpl in Eta.
  exists ta. split; [exact Eta|].
  specialize (Hleast _ Hx). unfold key in Hleast. simpl in Hleast.
  rewrite Etr, Eta in Hleast. exact Hleast.
Qed.

(** ** The classifier *)

(** C7: a record is kept by the client-side ownership filter exactly when it
    belongs to the identity: its trimmed name equals the identity's name
    without regard to case, or its trimmed phone equals the identity's
    phone; either alone is enough.  The filter of the fetch keeps the
    answered rows by the same test (all of them when no identity is given),
    and the screen applies the test again to whatever list it holds: a
    record of any view is a record of that list that belongs to the
    identity. *)
Theorem ownership_filter_iff_belongsTo :
  forall (LocalTZA : Z) (user : option User) (now : Z)
         (apps : list AvailableTimeSlot) (t : Store.table)
         (dates : list string) (r : AvailableTimeSlot),
    (In r (verifiedUserAppointments user apps) <->
     In r apps /\ belongsTo user r)
    /\
    (exists l,
        getUserAppointmentsForMultipleDates false t dates
          (user_name user) (user_phone user) = Some l /\
        (In r l <->
         In r (Store.select_user_rows t dates (user_name user) (user_phone user))
         /\ (belongsTo user r \/ noIdentity user)))
    /\
    (let v := classify LocalTZA user now apps in
     In r (upcoming v) \/ In r (past v) \/ next v = Some r ->
     In r apps /\ belongsTo user r).
Proof.
  intros tza user now apps t dates r. split; [apply verified_In|]. split.
  - unfold getUserAppointmentsForMultipleDates. eexists. split; [reflexivity|].
    destruct (JS.truthy (user_name user)) eqn:En;
      [|destruct (JS.truthy (user_phone user)) eqn:Ep]; simpl.
    + rewrite filter_In, owns_belongsTo. unfold noIdentity.
      intuition congruence.
    + rewrite filter_In, owns_belongsTo. unfold noIdentity.
      intuition congruence.
    + unfold noIdentity. intuition.
  - simpl. unfold upcomingAppointments, pastAppointments.
    intros [H|[H|H]].
    + apply filter_In in H. apply verified_In, H.
    + apply filter_In in H. apply verified_In, H.
    + apply nextAppointment_In in H. apply filter_In in H. apply verified_In, H.
Qed.

(** C8: for an identity with neither a name nor a phone the three views are
    empty, whatever the records. *)
Theorem classify_no_identity :
  forall (LocalTZA : Z) (user : option User) (now : Z)
         (apps : list AvailableTimeSlot),
    JS.truthy (user_name user) = false ->
    JS.truthy (user_phone user) = false ->
    classify LocalTZA user now apps =
      {| upcoming := []; past := []; next := None |}.
Proof.
  intros tza user now apps Hn Hp.
  unfold classify, verifiedUserAppointments. rewrite Hn, Hp. reflexivity.
Qed.


(** C5: in every state of the screen, a record with [is_available = true]
    is in none of the views, whoever it names. *)
Theorem available_never_shown :
  forall (LocalTZA : Z) (st : ScreenState) (user : option User) (now : Z)
         (r : AvailableTimeSlot),
    reachable LocalTZA st ->
    is_available r = true ->
    let v := classify LocalTZA user now (userAppointments st) in
    ~ In r (upcoming v) /\ ~ In r (past v) /\ next v <> Some r.
Proof.
  intros tza st user now r Hreach Hav v.
  assert (Hno : ~ In r (userAppointments st)).
  { intros Hin. pose proof (reachable_booked _ _ Hreach _ Hin). congruence. }
  pose proof (ownership_filter_sound := verified_In user (userAppointments st) r).
  assert (Hview : In r (upcoming v) \/ In r (past v) \/ next v = Some r -> False).
  { unfold v. simpl. unfold upcomingAppointments, pastAppointments.
    intros [H|[H|H]].
    - apply filter_In in H. apply Hno, ownership_filter_sound, H.
    - apply filter_In in H. apply Hno, ownership_filter_sound, H.
    - apply nextAppointment_In in H. apply filter_In in H.
      apply Hno, ownership_filter_sound, H. }
  tauto.
Qed.

(** ** The 48 hour window *)

Lemma Qltb_lt (a b : Q) : Qltb a b = true <-> (a < b)%Q.
Proof.
  unfold Qltb. rewrite negb_true_iff. split.
  - intros H. apply Qnot_le_lt. intros Hle.
    apply Qle_bool_iff in Hle. congruence.
  - intros H. destruct (Qle_bool b a) eqn:E; [|reflexivity].
    apply Qle_bool_iff in E. exfalso. exact (Qlt_not_le _ _ H E).
Qed.

Lemma deltaHours_lt_48 (dateTime now : Z) :
  (deltaHours dateTime now < 48 # 1)%Q <->
  dateTime - now < 48 * JSDate.msPerHour.
Proof. unfold deltaHours, Qlt, JSDate.msPerHour. simpl. lia. Qed.

(** A date that is missing or empty never gives a valid date-time. *)
Lemma appointmentDateTime_needs_date (LocalTZA : Z) (a : AvailableTimeSlot) (t : Z) :
  appointmentDateTime LocalTZA a = Some t -> JS.truthy (slot_date a) = true.
Proof.
  unfold appointmentDateTime.
  destruct (slot_date a) as [[|c r]|]; simpl; try reflexivity.
  - destruct (JS.padStart2 _ ++ _)%string; discriminate.
  - discriminate.
Qed.

Lemma isWithin48Hours_iff (LocalTZA : Z) (a : AvailableTimeSlot) (now t : Z) :
  appointmentDateTime LocalTZA a = Some t ->
  (isWithin48Hours LocalTZA a now = true <-> (deltaHours t now < 48 # 1)%Q).
Proof.
  intros Ht. unfold isWithin48Hours.
  rewrite (appointmentDateTime_needs_date _ _ _ Ht), Ht. simpl.
  apply Qltb_lt.
Qed.


(** C9: an appointment without a date is not within the window: the confirm
    dialog opens for it, the late-cancel dialog does not. *)
Theorem missing_date_confirmable :
  forall (LocalTZA : Z) (a : AvailableTimeSlot) (now : Z) (st : ScreenState),
    JS.truthy (slot_date a) = false ->
    let st' := handleCancelAppointment LocalTZA a now st in
    isWithin48Hours LocalTZA a now = false /\
    selectedAppointment st' = Some a /\
    showCancelModal st' = true /\
    showLateCancelModal st' = showLateCancelModal st /\
    (showLateCancelModal st = false -> eligibility st' = Some Confirmable).
Proof.
  intros tza a now st Hd st'.
  assert (Hw : isWithin48Hours tza a now = false)
    by (unfold isWithin48Hours; rewrite Hd; reflexivity).
  unfold st', eligibility, handleCancelAppointment. simpl. rewrite Hw.
  repeat split; try reflexivity.
  intros ->. reflexivity.
Qed.

(** ** The cancel operation *)

(** When the only row with this id is free already, the conditional update
    matches nothing and the table stays as it is. *)
Lemma update_cancel_noop (t : Store.table) (slotId : string)
    (row : AvailableTimeSlot) :
  Store.select_single t slotId = Some row ->
  is_available row = true ->
  Store.update_cancel t slotId = t.
Proof.
  unfold Store.select_single, Store.update_cancel. intros Hs Hav.
  destruct (filter _ t) as [|r0 [|r1 l]] eqn:E; try discriminate.
  injection Hs as ->.
  rewrite <- (map_id t) at 2. apply map_ext_in. intros r Hr.
  destruct (String.eqb (id r) slotId) eqn:Eid; [|reflexivity].
  assert (Hin : In r (filter (fun r => String.eqb (id r) slotId) t))
    by (apply filter_In; auto).
  rewrite E in Hin. destruct Hin as [<-|[]].
  rewrite Hav. reflexivity.
Qed.

(** C1, amended: when the selected record is free already at the time of
    the update, the update changes no row of the store.  The operation
    reports failure, with an alert and with the list and the notifications
    untouched, when the store answers the lookup or the update with an
    error; when the store answers both without error and the waitlist
    notifiers resolve, it reports success and the record leaves the list. *)
Theorem cancel_of_free_record :
  forall (env : Env) (user : option User) (st : ScreenState) (w : World)
         (selected row : AvailableTimeSlot),
    selectedAppointment st = Some selected ->
    Store.select_single (table w) (id selected) = Some row ->
    is_available row = true ->
    let result := fst (cancelAppointment env (id selected) w) in
    let after := confirmCancelAppointment env user st w in
    table (snd after) = table w /\
    (selectError env = true \/ updateError env = true ->
     result = Returned false /\
     userAppointments (fst after) = userAppointments st /\
     alerts (fst after) = alerts st ++ [couldNotCancel] /\
     emitted (snd after) = emitted w) /\
    (selectError env = false -> updateError env = false ->
     slotWaitlist env = Resolved -> serviceWaitlist env = Resolved ->
     result = Returned true /\
     userAppointments (fst after) =
       filter (fun apt => negb (String.eqb (id apt) (id selected)))
              (userAppointments st) /\
     alerts (fst after) = alerts st).
Proof.
  intros env user st w selected row Hsel Hrow Hav result after.
  pose proof (update_cancel_noop _ _ _ Hrow Hav) as Hnoop.
  unfold result, after, confirmCancelAppointment, cancelAppointment,
    tryCatch, bind, selectSingle, updateCancel, emit, ret.
  rewrite Hsel.
  destruct env as [se ue sw vw an]. simpl.
  destruct se; simpl.
  - repeat split; try reflexivity; intros; discriminate.
  - rewrite Hrow. simpl. destruct ue; simpl.
    + repeat split; try reflexivity; intros; discriminate.
    + rewrite Hnoop.
      destruct sw, vw, an; simpl;
        (split; [reflexivity|]);
        (split; [intros [H|H]; discriminate|]);
        intros _ _ H1 H2; try discriminate; repeat split; reflexivity.
Qed.

(** With the store answering without error and both waitlist notifiers
    resolving, the operation reports success and makes the three emissions
    in order, whether the admin notification resolves or rejects. *)
Lemma cancel_success_emissions :
  forall (env : Env) (user : option User) (st : ScreenState) (w : World)
         (selected row : AvailableTimeSlot),
    selectedAppointment st = Some selected ->
    Store.select_single (table w) (id selected) = Some row ->
    selectError env = false -> updateError env = false ->
    slotWaitlist env = Resolved -> serviceWaitlist env = Resolved ->
    let after := confirmCancelAppointment env user st w in
    fst (cancelAppointment env (id selected) w) = Returned true /\
    alerts (fst after) = alerts st /\
    table (snd after) = Store.update_cancel (table w) (id selected) /\
    emitted (snd after) =
      emitted w ++ [WaitlistSlot row; WaitlistService row;
                    AdminNotification cancelTitle (cancelContent user selected)
                      "system"].
Proof.
  intros env user st w selected row Hsel Hrow Hse Hue Hsw Hvw after.
  unfold after, confirmCancelAppointment, cancelAppointment,
    tryCatch, bind, selectSingle, updateCancel, emit, ret.
  rewrite Hsel, Hse, Hue, Hsw, Hvw, Hrow. simpl.
  destruct (adminNotifier env); simpl; rewrite <- !app_assoc; simpl;
    repeat split; reflexivity.
Qed.

(** A rejection of the first waitlist notifier, after the update went
    through, is caught by the operation and turned into a failure. *)
Lemma cancel_waitlist_rejection :
  forall (env : Env) (w : World) (slotId : string) (row : AvailableTimeSlot),
    Store.select_single (table w) slotId = Some row ->
    selectError env = false -> updateError env = false ->
    slotWaitlist env = Rejected ->
    cancelAppointment env slotId w =
      (Returned false,
       {| table := Store.update_cancel (table w) slotId;
          emitted := emitted w ++ [WaitlistSlot row] |}).
Proof.
  intros env w slotId row Hrow Hse Hue Hsw.
  unfold cancelAppointment, tryCatch, bind, selectSingle, updateCancel, emit, ret.
  rewrite Hse, Hue, Hsw, Hrow. reflexivity.
Qed.

(** The outcome of the admin notification changes nothing that the screen
    or the store can see. *)
Lemma admin_notification_best_effort :
  forall (se ue : bool) (sw vw an an' : outcome) (user : option User)
         (st : ScreenState) (w : World),
    confirmCancelAppointment (mkEnv se ue sw vw an) user st w =
    confirmCancelAppointment (mkEnv se ue sw vw an') user st w.
Proof.
  intros. unfold confirmCancelAppointment.
  destruct (selectedAppointment st) as [sel|]; [|reflexivity].
  replace (cancelAppointment (mkEnv se ue sw vw an') (id sel) w)
    with (cancelAppointment (mkEnv se ue sw vw an) (id sel) w)
    by reflexivity.
  destruct (cancelAppointment _ _ w) as [[[|]|] w1]; try reflexivity.
  unfold tryCatch, emit, ret. simpl. destruct an, an'; reflexivity.
Qed.

(** ** The calendar *)

Lemma YearFromDay_spec (day : Z) :
  JSDate.DayFromYear (JSDate.YearFromDay day) <= day
  < JSDate.DayFromYear (JSDate.YearFromDay day + 1).
Proof.
  unfold JSDate.YearFromDay.
  set (y := 1970 + 400 * day / 146097).
  assert (Hy : JSDate.DayFromYear (y - 1) <= day < JSDate.DayFromYear (y + 2)).
  { unfold y, JSDate.DayFromYear. Z.div_mod_to_equations. lia. }
  destruct (day <? JSDate.DayFromYear y) eqn:E1.
  - apply Z.ltb_lt in E1. replace (y - 1 + 1) with y by lia. lia.
  - apply Z.ltb_ge in E1.
    destruct (JSDate.DayFromYear (y + 1) <=? day) eqn:E2.
    + apply Z.leb_le in E2. replace (y + 1 + 1) with (y + 2) by lia. lia.
    + apply Z.leb_gt in E2. lia.
Qed.

(** [MakeDay] undoes the split of a day into year, month and date, also
    when the date is moved by [i] days. *)
Lemma MakeDay_civil (t i : Z) :
  JSDate.MakeDay (JSDate.YearFromTime t) (JSDate.MonthFromTime t)
                 (JSDate.DateFromTime t + i)
  = JSDate.Day t + i.
Proof.
  unfold JSDate.MakeDay, JSDate.YearFromTime, JSDate.MonthFromTime,
    JSDate.DateFromTime, JSDate.civil. simpl. lia.
Qed.

Lemma Day_add_days (t i : Z) :
  JSDate.Day (t + i * JSDate.msPerDay) = JSDate.Day t + i.
Proof. unfold JSDate.Day, JSDate.msPerDay. apply Z.div_add. discriminate. Qed.

(** In a zone of fixed offset, [setDate(getDate() + i)] moves the instant by
    [i] days. *)
Lemma setDate_getDate (LocalTZA t i : Z) :
  JSDate.setDate LocalTZA t (JSDate.getDate LocalTZA t + i)
  = t + i * JSDate.msPerDay.
Proof.
  unfold JSDate.setDate, JSDate.getDate. rewrite MakeDay_civil.
  unfold JSDate.UTC, JSDate.LocalTime, JSDate.TimeWithinDay, JSDate.Day.
  pose proof (Z.div_mod (t + LocalTZA) JSDate.msPerDay) as H.
  unfold JSDate.msPerDay in *. lia.
Qed.

(** The text of a date only depends on the day. *)
Lemma toISODate_Day (t : Z) : JSDate.toISODate t = isoDateOfDay (JSDate.Day t).
Proof.
  unfold isoDateOfDay, JSDate.toISODate, JSDate.YearFromTime,
    JSDate.MonthFromTime, JSDate.DateFromTime.
  replace (JSDate.Day (JSDate.Day t * JSDate.msPerDay)) with (JSDate.Day t);
    [reflexivity|].
  unfold JSDate.Day, JSDate.msPerDay. symmetry. apply Z.div_mul. discriminate.
Qed.

(** The dates of a load are the 22 dates from 7 days before to 14 days after
    the UTC calendar date of the instant of the load. *)
Lemma loadDates_window (LocalTZA now : Z) :
  loadDates LocalTZA now =
    map (fun i => isoDateOfDay (JSDate.Day now + i)) loadOffsets
  /\ List.length (loadDates LocalTZA now) = 22%nat
  /\ forall i, In i loadOffsets <-> -7 <= i <= 14.
Proof.
  split; [|split].
  - unfold loadDates. apply map_ext. intros i.
    rewrite setDate_getDate, toISODate_Day, Day_add_days. reflexivity.
  - unfold loadDates. rewrite List.length_map. reflexivity.
  - intros i. unfold loadOffsets. rewrite in_map_iff. split.
    + intros (k & <- & Hk). apply in_seq in Hk. lia.
    + intros H. exists (Z.to_nat (i + 7)). split; [lia|].
      apply in_seq. lia.
Qed.

Lemma in_dates_In (dates : list string) (r : AvailableTimeSlot) :
  Store.in_dates dates r = true <->
  exists d, In d dates /\ slot_date r = Some d.
Proof.
  unfold Store.in_dates. rewrite existsb_exists. split.
  - intros (d & Hd & E). exists d. split; [exact Hd|].
    unfold Store.opt_eqb in E. destruct (slot_date r); [|discriminate].
    apply String.eqb_eq in E. congruence.
  - intros (d & Hd & E). exists d. split; [exact Hd|].
    unfold Store.opt_eqb. rewrite E. apply String.eqb_refl.
Qed.

(** Whatever the store holds, a load that replaces the list leaves in it
    only booked rows dated within the window of the load. *)
Lemma load_within_window (LocalTZA : Z) (isRefresh : bool) (user : option User)
    (now : Z) (t : Store.table) (st : ScreenState) (r : AvailableTimeSlot) :
  ~ noIdentity user ->
  In r (userAppointments
          (loadUserAppointments LocalTZA isRefresh user now false t st)) ->
  In r t /\ is_available r = false /\
  exists i, -7 <= i <= 14 /\
            slot_date r = Some (isoDateOfDay (JSDate.Day now + i)).
Proof.
  intros Hid. unfold loadUserAppointments.
  destruct (negb _ && negb _) eqn:E.
  - exfalso. apply Hid. apply andb_true_iff in E.
    rewrite !negb_true_iff in E. exact E.
  - destruct (getUserAppointmentsForMultipleDates _ _ _ _ _) as [l|] eqn:El;
      [|discriminate].
    intros Hr. assert (Hl : In r l) by (destruct isRefresh; exact Hr).
    destruct (fetched_In _ _ _ _ _ _ _ El Hl) as (Ht & Hd & Hb).
    split; [exact Ht|]. split; [exact Hb|].
    apply in_dates_In in Hd. destruct Hd as (d & Hd & Ed).
    destruct (loadDates_window LocalTZA now) as (Eq & _ & Hoff).
    rewrite Eq in Hd. apply in_map_iff in Hd. destruct Hd as (i & <- & Hi).
    exists i. split; [apply Hoff, Hi|exact Ed].
Qed.

Lemma digit_digitChar (n : Z) : JSDate.digit (JSDate.digitChar n) = Some (n mod 10).
Proof.
  unfold JSDate.digitChar.
  pose proof (Z.mod_pos_bound n 10 eq_refl) as H.
  generalize dependent (n mod 10). intros k Hk.
  assert (E : k = 0 \/ k = 1 \/ k = 2 \/ k = 3 \/ k = 4 \/ k = 5 \/ k = 6 \/
              k = 7 \/ k = 8 \/ k = 9) by lia.
  repeat (destruct E as [->|E]; [reflexivity|]). subst k. reflexivity.
Qed.

Lemma pad2_append (n : Z) (r : string) :
  (JSDate.pad2 n ++ r)%string = String (JSDate.digitChar (n / 10)) (String (JSDate.digitChar n) r).
Proof. reflexivity. Qed.

(** Two printed digits read back as the number. *)
Lemma digits2_pad2 (n : Z) (r : string) :
  0 <= n < 100 -> JSDate.digits2 (JSDate.pad2 n ++ r) = Some (n, r).
Proof.
  intros Hn. rewrite pad2_append. unfold JSDate.digits2. rewrite !digit_digitChar.
  f_equal. f_equal. Z.div_mod_to_equations. lia.
Qed.

Lemma pad4_append (y : Z) (r : string) :
  (JSDate.pad4 y ++ r)%string = (JSDate.pad2 (y / 100) ++ (JSDate.pad2 (y mod 100) ++ r))%string.
Proof. reflexivity. Qed.

Lemma digits4_pad4 (y : Z) (r : string) :
  0 <= y <= 9999 -> JSDate.digits4 (JSDate.pad4 y ++ r) = Some (y, r).
Proof.
  intros Hy. rewrite pad4_append. unfold JSDate.digits4.
  rewrite digits2_pad2 by (Z.div_mod_to_equations; lia).
  rewrite digits2_pad2 by (Z.div_mod_to_equations; lia).
  f_equal. f_equal. Z.div_mod_to_equations. lia.
Qed.

(** A year has 365 days, 366 when it is a leap year. *)
Lemma DayFromYear_succ (y : Z) :
  JSDate.DayFromYear (y + 1) = JSDate.DayFromYear y + 365 + (if JSDate.isLeap y then 1 else 0).
Proof.
  unfold JSDate.DayFromYear, JSDate.isLeap.
  destruct (Z.eqb_spec (y mod 4) 0), (Z.eqb_spec (y mod 100) 0),
    (Z.eqb_spec (y mod 400) 0); cbn [andb orb negb];
    Z.div_mod_to_equations; lia.
Qed.

(** The month and the day of a civil date are in range. *)
Lemma civil_range (day : Z) :
  let '(y, m, d) := JSDate.civil day in
  1 <= m <= 12 /\ 1 <= d <= JSDate.DaysInMonth y m.
Proof.
  unfold JSDate.civil. cbv beta iota zeta.
  pose proof (YearFromDay_spec day) as H.
  rewrite DayFromYear_succ in H.
  set (y := JSDate.YearFromDay day) in *.
  assert (Hd : 0 <= day - JSDate.DayFromYear y < 365 + (if JSDate.isLeap y then 1 else 0)) by lia.
  remember (day - JSDate.DayFromYear y) as diy eqn:Ediy. clear Ediy H.
  unfold JSDate.MonthFromYearDay, JSDate.DaysInMonth, JSDate.monthStart.
  destruct (JSDate.isLeap y); cbn [Z.eqb Pos.eqb orb] in *;
  repeat match goal with
         | |- context [?a <? ?b] => destruct (Z.ltb_spec a b); cbn [Z.eqb Pos.eqb orb]
         end; lia.
Qed.

Lemma DayFromYear_le (y y' : Z) : y <= y' -> JSDate.DayFromYear y <= JSDate.DayFromYear y'.
Proof. intros H. unfold JSDate.DayFromYear. Z.div_mod_to_equations. lia. Qed.

Lemma YearFromDay_range (day : Z) :
  JSDate.DayFromYear 0 <= day < JSDate.DayFromYear 10000 -> 0 <= JSDate.YearFromDay day <= 9999.
Proof.
  intros H. pose proof (YearFromDay_spec day) as Hs.
  split.
  - destruct (Z_lt_le_dec (JSDate.YearFromDay day) 0) as [Hlt|]; [|assumption].
    pose proof (DayFromYear_le (JSDate.YearFromDay day + 1) 0 ltac:(lia)). lia.
  - destruct (Z_lt_le_dec 9999 (JSDate.YearFromDay day)) as [Hlt|]; [|assumption].
    pose proof (DayFromYear_le 10000 (JSDate.YearFromDay day) ltac:(lia)). lia.
Qed.

(** A date printed by [toISOString] is read back by [new Date] as UTC
    midnight of the same day. *)
Lemma parse_isoDateOfDay (tza day : Z) :
  JSDate.DayFromYear 0 <= day < JSDate.DayFromYear 10000 ->
  JSDate.parse tza (isoDateOfDay day) = Some (day * JSDate.msPerDay).
Proof.
  intros H. pose proof (YearFromDay_range day H) as Hy.
  pose proof (civil_range day) as Hc.
  pose proof (MakeDay_civil (day * JSDate.msPerDay) 0) as Hm.
  unfold isoDateOfDay, JSDate.toISODate, JSDate.YearFromTime, JSDate.MonthFromTime, JSDate.DateFromTime in *.
  replace (JSDate.Day (day * JSDate.msPerDay)) with day in *
    by (unfold JSDate.Day, JSDate.msPerDay; symmetry; apply Z.div_mul; discriminate).
  destruct (JSDate.civil day) as [[y m] d] eqn:E. simpl fst in *. simpl snd in *.
  assert (Ey : y = JSDate.YearFromDay day) by (unfold JSDate.civil in E; congruence).
  rewrite <- Ey in Hy. destruct Hc as [Hmr Hdr].
  unfold JSDate.isoYear.
  replace ((0 <=? y) && (y <=? 9999)) with true
    by (symmetry; apply andb_true_iff; split; apply Z.leb_le; lia).
  unfold JSDate.parse, JSDate.parseCalendar.
  rewrite digits4_pad4 by lia.
  change (JSDate.pad2 d) with (JSDate.pad2 d ++ "")%string.
  cbn [append].
  rewrite digits2_pad2 by lia.
  replace ((1 <=? m) && (m <=? 12)) with true
    by (symmetry; apply andb_true_iff; split; apply Z.leb_le; lia).
  cbn [negb].
  rewrite digits2_pad2 by (unfold JSDate.DaysInMonth in Hdr;
                           repeat destruct (_ : bool) in Hdr; lia).
  replace ((1 <=? d) && (d <=? JSDate.DaysInMonth y m)) with true
    by (symmetry; apply andb_true_iff; split; apply Z.leb_le; lia).
  f_equal. rewrite Z.add_0_r in Hm. rewrite Hm. lia.
Qed.

Lemma isoDateOfDay_inj (d1 d2 : Z) :
  JSDate.DayFromYear 0 <= d1 < JSDate.DayFromYear 10000 ->
  JSDate.DayFromYear 0 <= d2 < JSDate.DayFromYear 10000 ->
  isoDateOfDay d1 = isoDateOfDay d2 -> d1 = d2.
Proof.
  intros H1 H2 E.
  pose proof (parse_isoDateOfDay 0 d1 H1) as P1.
  pose proof (parse_isoDateOfDay 0 d2 H2) as P2.
  rewrite E in P1. rewrite P1 in P2. injection P2. unfold JSDate.msPerDay. lia.
Qed.

Lemma loadOffsets_NoDup : NoDup loadOffsets.
Proof.
  unfold loadOffsets. apply NoDup_map_NoDup_ForallPairs; [|apply seq_NoDup].
  intros a b _ _ E. lia.
Qed.

(** The 22 dates of a load are 22 different calendar dates. *)
Lemma loadDates_NoDup (LocalTZA now : Z) :
  fourDigitYears now -> NoDup (loadDates LocalTZA now).
Proof.
  intros [Hlo Hhi].
  destruct (loadDates_window LocalTZA now) as (-> & _ & Hoff).
  apply NoDup_map_NoDup_ForallPairs; [|exact loadOffsets_NoDup].
  intros i j Hi Hj E. apply Hoff in Hi, Hj.
  apply isoDateOfDay_inj in E; lia.
Qed.

(** Every row of a loaded list has a valid date: local midnight of one of
    the days of the window. *)
Lemma loaded_date_valid (LocalTZA : Z) (isRefresh : bool) (user : option User)
    (loadTime : Z) (t : Store.table) (st : ScreenState) (r : AvailableTimeSlot) :
  ~ noIdentity user ->
  fourDigitYears loadTime ->
  In r (userAppointments
          (loadUserAppointments LocalTZA isRefresh user loadTime false t st)) ->
  exists i, -7 <= i <= 14 /\
    appointmentDate LocalTZA r =
      Some (JSDate.startOfLocalDay LocalTZA
              ((JSDate.Day loadTime + i) * JSDate.msPerDay)).
Proof.
  intros Hid [Hlo Hhi] Hr.
  destruct (load_within_window _ _ _ _ _ _ _ Hid Hr) as (_ & _ & i & Hi & Ed).
  exists i. split; [exact Hi|].
  unfold appointmentDate. rewrite Ed. simpl.
  rewrite parse_isoDateOfDay by lia. reflexivity.
Qed.

Lemma upcoming_In (LocalTZA today : Z) (verified : list AvailableTimeSlot)
    (r : AvailableTimeSlot) (d : Z) :
  appointmentDate LocalTZA r = Some d ->
  (In r (upcomingAppointments LocalTZA today verified)
   <-> In r verified /\ today <= d).
Proof.
  intros Hd. unfold upcomingAppointments. rewrite filter_In, Hd. simpl.
  rewrite Z.leb_le. reflexivity.
Qed.

Lemma past_In (LocalTZA today : Z) (verified : list AvailableTimeSlot)
    (r : AvailableTimeSlot) (d : Z) :
  appointmentDate LocalTZA r = Some d ->
  (In r (pastAppointments LocalTZA today verified)
   <-> In r verified /\ d < today).
Proof.
  intros Hd. unfold pastAppointments. rewrite filter_In, Hd. simpl.
  rewrite Z.ltb_lt. reflexivity.
Qed.

(** The partition of a loaded list: every row of the list that belongs to
    the user is in exactly one of the two views. *)
Lemma partition_of_loaded (LocalTZA : Z) (isRefresh : bool) (user : option User)
    (loadTime now : Z) (t : Store.table) (st : ScreenState)
    (r : AvailableTimeSlot) :
  fourDigitYears loadTime ->
  let fetched :=
    userAppointments
      (loadUserAppointments LocalTZA isRefresh user loadTime false t st) in
  let v := classify LocalTZA user now fetched in
  In r fetched ->
  belongsTo user r ->
  (In r (upcoming v) /\ ~ In r (past v)) \/
  (~ In r (upcoming v) /\ In r (past v)).
Proof.
  intros Hy fetched v Hr Hown.
  assert (Hid : ~ noIdentity user) by exact (belongsTo_identity _ _ Hown).
  destruct (loaded_date_valid _ _ _ _ _ _ _ Hid Hy Hr) as (i & _ & Hd).
  assert (Hv : In r (verifiedUserAppointments user fetched))
    by (apply verified_In; auto).
  unfold v. simpl.
  rewrite (upcoming_In _ _ _ _ _ Hd), (past_In _ _ _ _ _ Hd).
  match goal with
  | |- context [today ?z ?n <= ?d] => destruct (Z_lt_le_dec d (today z n))
  end; [right|left]; split; try (split; [exact Hv|]); try lia;
    intros [_ H]; lia.
Qed.

(** ** The scenarios *)

Import Scenario.

(** C1, counterexample: the row was freed by somebody else; the store
    answers without error, the operation reports success and the record
    leaves the list. *)
Lemma free_record_reported_cancelled :
  selectedAppointment selected = Some booked /\
  Store.select_single (table freedWorld) (id booked) = Some (Store.freed booked) /\
  is_available (Store.freed booked) = true /\
  ~ claimed_failure_on_free_record allFine dana selected freedWorld booked.
Proof.
  repeat split. intros [H _]. vm_compute in H. discriminate.
Qed.

Lemma cancel_of_free_record_witness :
  selectedAppointment selected = Some booked /\
  Store.select_single (table freedWorld) (id booked) = Some (Store.freed booked) /\
  is_available (Store.freed booked) = true /\
  table (snd (confirmCancelAppointment allFine dana selected freedWorld))
    = table freedWorld /\
  userAppointments (fst (confirmCancelAppointment allFine dana selected freedWorld))
    = [].
Proof.
  split; [reflexivity|]. split; [reflexivity|]. split; [reflexivity|]. split.
  - exact (proj1 (cancel_of_free_record allFine dana selected freedWorld booked
                    (Store.freed booked) eq_refl eq_refl eq_refl)).
  - exact (proj1 (proj2 (proj2 (proj2
             (cancel_of_free_record allFine dana selected freedWorld booked
                (Store.freed booked) eq_refl eq_refl eq_refl))
             eq_refl eq_refl eq_refl eq_refl))).
Defined.

(** C2, at the failing input: the row is booked and the update goes through,
    but a waitlist notifier rejects.  The operation then reports failure
    with an alert and keeps the record in the list although the store has
    freed it, and the emissions that come after are never made. *)
Theorem waitlist_rejection_reported_as_failure :
  (let after := confirmCancelAppointment slotWaitlistRejects dana selected
                  bookedWorld in
   fst (cancelAppointment slotWaitlistRejects (id booked) bookedWorld)
     = Returned false /\
   table (snd after) = [Store.freed booked] /\
   emitted (snd after) = [WaitlistSlot booked] /\
   alerts (fst after) = [couldNotCancel] /\
   userAppointments (fst after) = [booked])
  /\
  (let after := confirmCancelAppointment serviceWaitlistRejects dana selected
                  bookedWorld in
   fst (cancelAppointment serviceWaitlistRejects (id booked) bookedWorld)
     = Returned false /\
   table (snd after) = [Store.freed booked] /\
   emitted (snd after) = [WaitlistSlot booked; WaitlistService booked] /\
   alerts (fst after) = [couldNotCancel] /\
   userAppointments (fst after) = [booked]).
Proof. vm_compute. repeat split. Qed.

(** C3, at the failing input: of two appointments of one day at 10:00 and
    at 9:30, the next appointment is the one at 10:00.  The time 9:30 is
    not padded here, the date-time built from it is invalid, and the
    comparator answers NaN; the window test pads it and reads 09:30. *)
Theorem nextAppointment_unpadded_time :
  forall LocalTZA : Z,
    nextAppointment LocalTZA [atTen; atHalfPastNine] = Some atTen /\
    nextDateTime LocalTZA atHalfPastNine = None /\
    (exists t930 t10,
        appointmentDateTime LocalTZA atHalfPastNine = Some t930 /\
        appointmentDateTime LocalTZA atTen = Some t10 /\
        nextDateTime LocalTZA atTen = Some t10 /\
        t930 < t10) /\
    (let fetched :=
       userAppointments
         (loadUserAppointments israel false dana newYear false
            [atHalfPastNine; atTen] initialState) in
     upcoming (classify israel dana newYear fetched) = [atTen; atHalfPastNine] /\
     next (classify israel dana newYear fetched) = Some atTen).
Proof.
  intros tza. split; [reflexivity|]. split; [reflexivity|]. split.
  - eexists _, _. repeat split; try reflexivity.
    unfold JSDate.UTC. apply Z.sub_lt_mono_r. reflexivity.
  - split; reflexivity.
Qed.

(** C10, at the failing input: half an hour after midnight of 2024-01-10,
    two hours east of UTC, the load asks for 2024-01-02 to 2024-01-23.  The
    past view then holds an appointment of 8 days before today, and an
    appointment 14 days after today is not fetched. *)
Theorem load_window_shifted_by_zone :
  JSDate.parse israel "2024-01-10T00:30" = Some afterMidnight /\
  hd_error (loadDates israel afterMidnight) = Some "2024-01-02"%string /\
  last (loadDates israel afterMidnight) EmptyString = "2024-01-23"%string /\
  userAppointments lateNightLoad = [eightDaysAgo] /\
  (let v := classify israel dana afterMidnight (userAppointments lateNightLoad) in
   past v = [eightDaysAgo] /\ upcoming v = []) /\
  appointmentDate israel eightDaysAgo
    = Some (today israel afterMidnight - 8 * JSDate.msPerDay) /\
  appointmentDate israel inFourteenDays
    = Some (today israel afterMidnight + 14 * JSDate.msPerDay).
Proof. vm_compute. repeat split. Qed.

(** ** Instances *)


Lemma missing_date_confirmable_witness :
  JS.truthy (slot_date undated) = false /\
  eligibility (handleCancelAppointment israel undated newYear initialState)
    = Some Confirmable.
Proof.
  split; [reflexivity|].
  destruct (missing_date_confirmable israel undated newYear initialState eq_refl)
    as (_ & _ & _ & _ & H).
  apply H. reflexivity.
Defined.

Lemma classify_no_identity_witness :
  JS.truthy (user_name nobody) = false /\
  JS.truthy (user_phone nobody) = false /\
  classify israel nobody newYear [booked; undated] =
    {| upcoming := []; past := []; next := None |}.
Proof.
  split; [reflexivity|]. split; [reflexivity|].
  apply (classify_no_identity israel nobody newYear [booked; undated]);
    reflexivity.
Defined.

Lemma booked_belongsTo_dana : belongsTo dana booked.
Proof.
  left. exists " dana cohen"%string, "Dana Cohen"%string.
  repeat split; discriminate.
Defined.


Lemma available_never_shown_witness :
  reachable israel loaded /\
  is_available (Store.freed booked) = true /\
  ~ In (Store.freed booked)
       (upcoming (classify israel dana newYear (userAppointments loaded))).
Proof.
  assert (R : reachable israel loaded) by (apply reach_load, reach_init).
  split; [exact R|]. split; [reflexivity|].
  exact (proj1 (available_never_shown israel loaded dana newYear
                  (Store.freed booked) R eq_refl)).
Defined.

Lemma ownership_filter_iff_belongsTo_witness :
  In booked (verifiedUserAppointments dana [booked; Store.freed booked]) /\
  ~ In (Store.freed booked)
       (verifiedUserAppointments dana [booked; Store.freed booked]).
Proof.
  pose proof (ownership_filter_iff_belongsTo israel dana newYear
                [booked; Store.freed booked] [] []) as H.
  split.
  - apply (proj1 (H booked)). split; [left; reflexivity|].
    exact booked_belongsTo_dana.
  - intros Hin. apply (proj1 (H (Store.freed booked))) in Hin.
    destruct Hin as [_ [(cn & n & [Hc _] & _)|(cp & p & [Hc _] & _)]];
      discriminate.
Defined.

(** Dates as [new Date] reads them two hours east of UTC: a date alone is
    UTC midnight, a date and time is local, an hour of one digit is not a
    date. *)
Example parse_examples :
  JSDate.parse israel "2024-01-03" = Some 1704240000000 /\
  JSDate.parse israel "2024-01-03T00:00" = Some 1704232800000 /\
  JSDate.parse israel "2024-01-03T14:30:00" = Some 1704285000000 /\
  JSDate.parse israel "2024-01-03T9:30" = None /\
  JSDate.parse israel "2024-02-30" = None /\
  JSDate.ofValue israel None = Some 0 /\
  JSDate.toISODate 1704232800000 = "2024-01-02"%string.
Proof. repeat split. Qed.

Example string_examples :
  JS.split_colon "9:30:00" = ["9"; "30"; "00"]%string /\
  JS.split_colon "" = [""]%string /\
  JS.padStart2 "9" = "09"%string /\
  JS.trim "  Dana Cohen  " = "Dana Cohen"%string /\
  JS.toLowerCase "Dana Cohen" = "dana cohen"%string.
Proof. repeat split. Qed.

(** The examples of the eligibility rule, with now = 2024-01-01T00:00. *)
Example eligibility_examples :
  eligibility (handleCancelAppointment israel in36h newYear initialState)
    = Some WithinWindow /\
  eligibility (handleCancelAppointment israel in47h59 newYear initialState)
    = Some WithinWindow /\
  eligibility (handleCancelAppointment israel in48h newYear initialState)
    = Some Confirmable.
Proof. repeat split. Qed.

(** The scenario of the booked appointment and the open slot of the same
    date and time: one upcoming record, which is also the next one. *)
Example booked_and_open_slot :
  let fetched :=
    userAppointments
      (loadUserAppointments israel false dana newYear false
         [Store.freed booked; booked] initialState) in
  upcoming (classify israel dana newYear fetched) = [booked] /\
  past (classify israel dana newYear fetched) = [] /\
  next (classify israel dana newYear fetched) = Some booked.
Proof. repeat split. Qed.

(** * Further properties *)

(** ** More on the next appointment *)

Section SortTies.

Context {A : Type}.
Variable before : A -> A -> bool.
Variable key : A -> Z.

(** The head of the sorted list is the first element of least key. *)
Lemma sort_head_first_least (l : list A) :
  (forall x y, In x l -> In y l -> before x y = (key x <=? key y)) ->
  forall h r, JSArray.sort before l = h :: r ->
  exists l1 l2, l = l1 ++ h :: l2 /\ forall y, In y l1 -> key h < key y.
Proof.
  induction l as [|a l IH]; intros Hb h r Hs; [discriminate|].
  simpl in Hs.
  assert (Hb' : forall x y, In x l -> In y l -> before x y = (key x <=? key y))
    by (intros; apply Hb; simpl; auto).
  destruct (JSArray.sort before l) as [|h0 r0] eqn:E.
  - apply sort_nil_inv in E. subst l. simpl in Hs. injection Hs as <- _.
    exists [], []. split; [reflexivity|]. intros y [].
  - destruct (IH Hb' h0 r0 eq_refl) as (l1 & l2 & El & Hl1).
    assert (Hh0 : In h0 l) by (rewrite El; apply in_elt).
    simpl in Hs. rewrite Hb in Hs by (simpl; auto).
    destruct (key a <=? key h0) eqn:C.
    + injection Hs as <- _. exists [], l. split; [reflexivity|]. intros y [].
    + injection Hs as <- _. apply Z.leb_gt in C.
      exists (a :: l1), l2. split; [rewrite El; reflexivity|].
      intros y [<-|Hy]; [exact C|exact (Hl1 y Hy)].
Qed.

End SortTies.

(** Among appointments of the same, least date-time the one that comes
    first in the list is the next one: every appointment before it in the
    list is strictly later. *)
Theorem nextAppointment_first_earliest :
  forall (LocalTZA : Z) (l : list AvailableTimeSlot) (r : AvailableTimeSlot),
    (forall a, In a l -> nextDateTime LocalTZA a <> None) ->
    nextAppointment LocalTZA l = Some r ->
    exists l1 l2 tr,
      l = l1 ++ r :: l2 /\
      nextDateTime LocalTZA r = Some tr /\
      forall a, In a l1 ->
      exists ta, nextDateTime LocalTZA a = Some ta /\ tr < ta.
Proof.
  intros tza l r Hv Hr.
  unfold nextAppointment in Hr. destruct l as [|a0 l0]; [discriminate|].
  set (l := a0 :: l0) in *.
  set (w := map (fun a => (a, nextDateTime tza a)) l) in *.
  set (key := fun x : AvailableTimeSlot * option Z =>
                match snd x with Some t => t | None => 0 end).
  destruct (JSArray.sort notAfter w) as [|first rest] eqn:E; [discriminate|].
  injection Hr as <-.
  assert (Hw : forall x, In x w -> snd x = nextDateTime tza (fst x) /\
                                   exists t, snd x = Some t).
  { intros x Hx. unfold w in Hx. apply in_map_iff in Hx.
    destruct Hx as (a & <- & Ha). simpl. split; [reflexivity|].
    destruct (nextDateTime tza a) eqn:Ea; [eauto|].
    exfalso. exact (Hv a Ha Ea). }
  assert (Hb : forall x y, In x w -> In y w ->
                           notAfter x y = (key x <=? key y)).
  { intros x y Hx Hy.
    destruct (Hw x Hx) as [_ [tx Ex]], (Hw y Hy) as [_ [ty Ey]].
    unfold notAfter, compareDateTime, key. rewrite Ex, Ey.
    destruct (tx - ty <=? 0) eqn:C1, (tx <=? ty) eqn:C2; try reflexivity;
      [apply Z.leb_le in C1; apply Z.leb_gt in C2
      |apply Z.leb_gt in C1; apply Z.leb_le in C2]; lia. }
  destruct (sort_head_first_least notAfter key w Hb first rest E)
    as (w1 & w2 & Ew & Hw1).
  assert (Hf : In first w) by (rewrite Ew; apply in_elt).
  destruct (Hw first Hf) as [Efirst [tr Etr]].
  unfold w in Ew. apply map_eq_app in Ew.
  destruct Ew as (l1 & l2' & El & E1 & E2).
  apply map_eq_cons in E2. destruct E2 as (r' & l2 & El2 & Er & _).
  exists l1, l2, tr. split; [|split].
  - rewrite El, El2, <- Er. reflexivity.
  - rewrite <- Efirst. exact Etr.
  - intros a Ha.
    assert (Hx1 : In (a, nextDateTime tza a) w1)
      by (rewrite <- E1; apply in_map_iff; eauto).
    assert (Hx : In (a, nextDateTime tza a) w).
    { unfold w. apply in_map_iff. exists a. split; [reflexivity|].
      rewrite El. apply in_or_app. left. exact Ha. }
    destruct (Hw _ Hx) as [_ [ta Eta]]. simpl in Eta.
    exists ta. split; [exact Eta|].
    specialize (Hw1 _ Hx1). unfold key in Hw1. simpl in Hw1.
    rewrite Etr, Eta in Hw1. exact Hw1.
Qed.

(** ** The list under the hero card *)

Lemma NoDup_ids_eq (l : list AvailableTimeSlot) (a b : AvailableTimeSlot) :
  NoDup (map id l) -> In a l -> In b l -> id a = id b -> a = b.
Proof.
  induction l as [|x l IH]; intros Hn Ha Hb E; [destruct Ha|].
  simpl in Hn. inversion Hn as [|? ? Hx Hn']; subst.
  destruct Ha as [<-|Ha], Hb as [<-|Hb]; auto.
  - exfalso. apply Hx. rewrite E. apply in_map. exact Hb.
  - exfalso. apply Hx. rewrite <- E. apply in_map. exact Ha.
Qed.

Lemma filter_other_ids_length (l : list AvailableTimeSlot) (nx : AvailableTimeSlot) :
  NoDup (map id l) -> In nx l ->
  (List.length (filter (fun a => negb (String.eqb (id a) (id nx))) l) + 1
   = List.length l)%nat.
Proof.
  induction l as [|x l IH]; intros Hn Hin; [destruct Hin|].
  simpl in Hn. inversion Hn as [|? ? Hx Hn']; subst. simpl.
  destruct (String.eqb_spec (id x) (id nx)) as [E|E]; simpl.
  - rewrite forallb_filter_id; [lia|].
    apply forallb_forall. intros y Hy. apply negb_true_iff.
    apply String.eqb_neq. intros Ey. apply Hx. rewrite E, <- Ey.
    apply in_map. exact Hy.
  - destruct Hin as [<-|Hin]; [congruence|]. rewrite <- (IH Hn' Hin). lia.
Qed.

(** With distinct ids, the hero card and the list under it show every
    upcoming appointment once: the list is the upcoming list without the
    next appointment. *)
Theorem hero_and_list_cover_upcoming :
  forall (LocalTZA : Z) (up : list AvailableTimeSlot) (nx : AvailableTimeSlot),
    NoDup (map id up) ->
    nextAppointment LocalTZA up = Some nx ->
    let shown := displayedUpcomingAppointments LocalTZA up in
    (forall a, In a up <-> a = nx \/ In a shown) /\
    ~ In nx shown /\
    (List.length shown + 1 = List.length up)%nat.
Proof.
  intros tza up nx Hn Hnx shown.
  pose proof (nextAppointment_In _ _ _ Hnx) as Hin.
  unfold shown, displayedUpcomingAppointments. rewrite Hnx.
  split; [|split].
  - intros a. rewrite filter_In, negb_true_iff, String.eqb_neq. split.
    + intros Ha. destruct (String.eqb_spec (id a) (id nx)) as [E|E].
      * left. exact (NoDup_ids_eq up a nx Hn Ha Hin E).
      * right. auto.
    + intros [->|[Ha _]]; assumption.
  - rewrite filter_In, negb_true_iff, String.eqb_neq. intros [_ H]. congruence.
  - apply filter_other_ids_length; assumption.
Qed.

(** ** The counts of the two tabs *)

Lemma filter_split_length {A : Type} (p q : A -> bool) (l : list A) :
  (forall x, In x l -> p x && q x = false) ->
  (List.length (filter p l) + List.length (filter q l) <= List.length l)%nat /\
  ((forall x, In x l -> p x || q x = true) ->
   (List.length (filter p l) + List.length (filter q l) = List.length l)%nat).
Proof.
  induction l as [|a l IH]; intros Hex; [simpl; split; [lia|reflexivity]|].
  destruct IH as [IH1 IH2]; [intros; apply Hex; simpl; auto|].
  pose proof (Hex a (or_introl eq_refl)) as Ha.
  split.
  - simpl. destruct (p a), (q a); simpl in *; try discriminate; lia.
  - intros Hall. pose proof (Hall a (or_introl eq_refl)) as Ha'.
    specialize (IH2 (fun x Hx => Hall x (or_intror Hx))).
    simpl. destruct (p a), (q a); simpl in *; try discriminate; lia.
Qed.

(** The two counts on the tabs never add up to more than the number of the
    user's appointments, and to exactly that number when every appointment
    has a valid date. *)
Theorem tab_counts :
  forall (LocalTZA : Z) (user : option User) (now : Z)
         (apps : list AvailableTimeSlot),
    let v := classify LocalTZA user now apps in
    let verified := verifiedUserAppointments user apps in
    (List.length (upcoming v) + List.length (past v) <= List.length verified)%nat /\
    ((forall a, In a verified -> appointmentDate LocalTZA a <> None) ->
     (List.length (upcoming v) + List.length (past v) = List.length verified)%nat).
Proof.
  intros tza user now apps v verified. unfold v. simpl.
  unfold upcomingAppointments, pastAppointments. fold verified.
  destruct (filter_split_length
              (fun slot => date_geb (appointmentDate tza slot) (today tza now))
              (fun slot => date_ltb (appointmentDate tza slot) (today tza now))
              verified) as [H1 H2].
  - intros x _. unfold date_geb, date_ltb.
    destruct (appointmentDate tza x) as [d|]; [|reflexivity].
    destruct (Z.leb_spec (today tza now) d), (Z.ltb_spec d (today tza now));
      try reflexivity; lia.
  - split; [exact H1|]. intros Hv. apply H2. intros x Hx.
    unfold date_geb, date_ltb.
    destruct (appointmentDate tza x) as [d|] eqn:E; [|exfalso; exact (Hv x Hx E)].
    destruct (Z.leb_spec (today tza now) d), (Z.ltb_spec d (today tza now));
      try reflexivity; lia.
Qed.

(** ** The window as time passes *)

(** Once an appointment is within the window it stays within it: the test
    can only turn from cancellable to blocked as the clock advances. *)
Theorem window_never_reopens :
  forall (LocalTZA : Z) (a : AvailableTimeSlot) (now later : Z),
    now <= later ->
    isWithin48Hours LocalTZA a now = true ->
    isWithin48Hours LocalTZA a later = true.
Proof.
  intros tza a now later Hle H.
  destruct (appointmentDateTime tza a) as [t|] eqn:E.
  - rewrite (isWithin48Hours_iff tza a now t E) in H.
    rewrite (isWithin48Hours_iff tza a later t E).
    rewrite deltaHours_lt_48 in *. lia.
  - unfold isWithin48Hours in H. rewrite E in H.
    destruct (negb _) in H; discriminate.
Qed.

(** ** [formatTime] *)

Lemma split_colon_not_nil (s : string) : JS.split_colon s <> [].
Proof.
  induction s as [|c r IH]; simpl; [discriminate|].
  destruct (Ascii.eqb c ":"%char); [discriminate|].
  destruct (JS.split_colon r); discriminate.
Qed.

Lemma split_colon_parts (s : string) :
  Forall (fun p => colonFree p = true) (JS.split_colon s).
Proof.
  induction s as [|c r IH]; simpl.
  - constructor; [reflexivity|constructor].
  - destruct (Ascii.eqb c ":"%char) eqn:E.
    + constructor; [reflexivity|exact IH].
    + destruct (JS.split_colon r) as [|h t].
      * constructor; [simpl; rewrite E; reflexivity|constructor].
      * inversion IH as [|? ? Hh Ht]; subst.
        constructor; [simpl; rewrite E, Hh; reflexivity|exact Ht].
Qed.

Lemma split_colon_colonFree (s : string) :
  colonFree s = true -> JS.split_colon s = [s].
Proof.
  induction s as [|c r IH]; simpl; [reflexivity|].
  intros H. apply andb_true_iff in H. destruct H as [Hc Hr].
  apply negb_true_iff in Hc. rewrite Hc, (IH Hr). reflexivity.
Qed.

Lemma split_colon_app (a b : string) :
  colonFree a = true ->
  JS.split_colon (a ++ String ":"%char b) = a :: JS.split_colon b.
Proof.
  induction a as [|c r IH]; simpl; [reflexivity|].
  intros H. apply andb_true_iff in H. destruct H as [Hc Hr].
  apply negb_true_iff in Hc. rewrite Hc, (IH Hr). reflexivity.
Qed.

Lemma padStart2_colonFree (s : string) :
  colonFree s = true -> colonFree (JS.padStart2 s) = true.
Proof. destruct s as [|c [|d r]]; simpl; intros H; auto. Qed.

Lemma padStart2_idem (s : string) : JS.padStart2 (JS.padStart2 s) = JS.padStart2 s.
Proof. destruct s as [|c [|d r]]; reflexivity. Qed.

Lemma split_colon_has_colon (s : string) :
  colonFree s = false -> (2 <= List.length (JS.split_colon s))%nat.
Proof.
  induction s as [|c r IH]; simpl; [discriminate|].
  destruct (Ascii.eqb c ":"%char) eqn:E; simpl.
  - intros _. pose proof (split_colon_not_nil r).
    destruct (JS.split_colon r); [congruence|simpl; lia].
  - intros H. specialize (IH H).
    destruct (JS.split_colon r) as [|h t]; simpl in *; lia.
Qed.

(** Formatting a time that is formatted already changes nothing. *)
Theorem formatTime_idempotent :
  forall t : option string, formatTime (Some (formatTime t)) = formatTime t.
Proof.
  intros t. destruct (JS.truthy t) eqn:Ht.
  2:{ assert (E : formatTime t = EmptyString)
        by (unfold formatTime; rewrite Ht; reflexivity).
      rewrite E. reflexivity. }
  set (s := JS.interpolate t).
  assert (Hs : JS.truthy (Some s) = true).
  { unfold s. destruct t as [[|c r]|]; try discriminate. reflexivity. }
  pose proof (split_colon_parts s) as Hp.
  pose proof (split_colon_not_nil s) as Hn.
  destruct (JS.split_colon s) as [|p0 [|p1 rest]] eqn:E; [congruence| |].
  - assert (E1 : formatTime t = s).
    { unfold formatTime. rewrite Ht. simpl. fold s. rewrite E. reflexivity. }
    rewrite E1. unfold formatTime. rewrite Hs. simpl. rewrite E. reflexivity.
  - inversion Hp as [|? ? H0 Hp']; subst. inversion Hp' as [|? ? H1 _]; subst.
    set (h := JS.padStart2 p0). set (m := JS.padStart2 p1).
    assert (E1 : formatTime t = (h ++ String ":"%char m)%string).
    { unfold formatTime. rewrite Ht. simpl. fold s. rewrite E. reflexivity. }
    rewrite E1. unfold formatTime.
    assert (Hr : JS.truthy (Some (h ++ String ":"%char m)%string) = true).
    { unfold h. destruct p0 as [|c [|d r]]; reflexivity. }
    rewrite Hr. simpl JS.interpolate. cbv beta iota zeta. simpl negb. cbv iota.
    rewrite split_colon_app by (apply padStart2_colonFree; exact H0).
    rewrite split_colon_colonFree by (apply padStart2_colonFree; exact H1).
    simpl. unfold h, m. rewrite !padStart2_idem. reflexivity.
Qed.

(** For a time with a colon in it, the window test reads the time that the
    cards show: the date-time of the test is the date followed by the
    formatted time, seconds left out. *)
Theorem window_reads_formatted_time :
  forall (LocalTZA : Z) (a : AvailableTimeSlot) (t : string),
    slot_time a = Some t ->
    colonFree t = false ->
    appointmentDateTime LocalTZA a =
      JSDate.parse LocalTZA
        (JS.interpolate (slot_date a) ++ "T" ++ formatTime (slot_time a))%string.
Proof.
  intros tza a t Et Hc. unfold appointmentDateTime, formatTime. rewrite Et.
  assert (Ht : JS.truthy (Some t) = true)
    by (destruct t; [discriminate|reflexivity]).
  rewrite Ht. simpl negb. cbv iota.
  replace (JS.or_default (Some t) "00:00") with t
    by (destruct t; [discriminate|reflexivity]).
  change (JS.interpolate (Some t)) with t.
  pose proof (split_colon_has_colon t Hc) as Hl.
  destruct (JS.split_colon t) as [|p0 [|p1 rest]]; simpl in Hl; try lia.
  reflexivity.
Qed.

(** ** The manager's phone *)

Lemma stripNonDigits_digits (s : string) :
  forallb isDigit (list_ascii_of_string (stripNonDigits s)) = true.
Proof.
  induction s as [|c r IH]; simpl; [reflexivity|].
  destruct (isDigit c) eqn:E; simpl; [rewrite E|]; exact IH.
Qed.

Lemma stripNonDigits_fixed (s : string) :
  forallb isDigit (list_ascii_of_string s) = true -> stripNonDigits s = s.
Proof.
  induction s as [|c r IH]; simpl; [reflexivity|].
  intros H. apply andb_true_iff in H. destruct H as [Hc Hr].
  rewrite Hc, (IH Hr). reflexivity.
Qed.

Lemma slice1_digits (s : string) :
  forallb isDigit (list_ascii_of_string s) = true ->
  forallb isDigit (list_ascii_of_string (slice1 s)) = true.
Proof.
  destruct s as [|c r]; simpl; [reflexivity|].
  intros H. apply andb_true_iff in H. apply H.
Qed.

Lemma normalizeManagerPhone_digits (phone : string) :
  forallb isDigit (list_ascii_of_string (normalizeManagerPhone phone)) = true.
Proof.
  unfold normalizeManagerPhone.
  pose proof (stripNonDigits_digits phone) as H.
  destruct (String.prefix "0" _ && _).
  - apply (slice1_digits _ H).
  - destruct (negb _); exact H.
Qed.

(** The stored number has digits only, a stored number of nine digits or
    more does not start with 0, and normalising a stored number again
    leaves it as it is. *)
Theorem normalizeManagerPhone_canonical :
  forall phone : string,
    let stored := normalizeManagerPhone phone in
    forallb isDigit (list_ascii_of_string stored) = true /\
    ((9 <= String.length stored)%nat -> String.prefix "0" stored = false) /\
    normalizeManagerPhone stored = stored.
Proof.
  intros phone stored.
  pose proof (normalizeManagerPhone_digits phone) as Hd. fold stored in Hd.
  split; [exact Hd|].
  assert (Hz : (9 <= String.length stored)%nat -> String.prefix "0" stored = false).
  { unfold stored, normalizeManagerPhone.
    set (n := stripNonDigits phone).
    destruct (String.prefix "0" n) eqn:E0;
      destruct (9 <=? String.length n)%nat eqn:E9; cbn [andb].
    - intros _. reflexivity.
    - apply Nat.leb_gt in E9. destruct (negb _); intros H; lia.
    - destruct (negb _); intros _; exact E0.
    - destruct (negb _); intros _; exact E0. }
  split; [exact Hz|].
  unfold normalizeManagerPhone at 1. rewrite (stripNonDigits_fixed _ Hd).
  destruct (String.prefix "0" stored) eqn:E0;
    destruct (9 <=? String.length stored)%nat eqn:E9; cbn [andb].
  - apply Nat.leb_le in E9. specialize (Hz E9). congruence.
  - destruct (negb _); reflexivity.
  - destruct (negb _); reflexivity.
  - destruct (negb _); reflexivity.
Qed.

Lemma managerPhone_digits_from (qs : list ManagerQuery) (mp : option string) :
  (forall p, mp = Some p -> forallb isDigit (list_ascii_of_string p) = true) ->
  forall p, fold_left (fun mp q => loadManagerPhone q mp) qs mp = Some p ->
  forallb isDigit (list_ascii_of_string p) = true.
Proof.
  revert mp. induction qs as [|q qs IH]; intros mp Hmp p; simpl; [apply Hmp|].
  apply IH. intros p' Hp'. destruct q as [|error phone]; simpl in Hp'.
  - discriminate.
  - destruct (negb error && JS.truthy phone).
    + injection Hp' as <-. apply normalizeManagerPhone_digits.
    + exact (Hmp p' Hp').
Qed.

Lemma opened_url_of_actions (u url : string) (rest : list ScreenAction) :
  (forall v, ~ In (OpenedURL v) rest) ->
  In (OpenedURL url) (OpenedURL u :: rest) -> url = u.
Proof.
  intros Hrest [H|H]; [congruence|]. exfalso. exact (Hrest _ H).
Qed.

Lemma no_url_in_alert (m : string) : forall v, ~ In (OpenedURL v) [Alerted m].
Proof. intros v [H|[]]. discriminate. Qed.

(** Whatever the queries for the manager's phone answered, a chat is only
    ever opened at a number that is not empty and has digits only, as the
    app link or as the web link; without such a number the alert that the
    manager's number is unavailable is all that happens, and when no link
    opens without error an alert is shown. *)
Theorem whatsapp_only_to_manager_number :
  forall (encodeURIComponent : string -> string) (qs : list ManagerQuery)
         (message : string) (env : LinkingEnv),
    let managerPhone := managerPhoneAfter qs in
    let actions :=
      contactManagerOnWhatsApp encodeURIComponent managerPhone message env in
    (forall url, In (OpenedURL url) actions ->
       exists p, managerPhone = Some p /\ p <> EmptyString /\
                 forallb isDigit (list_ascii_of_string p) = true /\
                 (url = appUrl encodeURIComponent p message \/
                  url = webUrl encodeURIComponent p message)) /\
    (JS.truthy managerPhone = false -> actions = [Alerted managerUnavailable]) /\
    (actions = [] -> False) /\
    (~ (exists url, actions = [OpenedURL url]) -> exists m, In (Alerted m) actions).
Proof.
  intros enc qs message env. cbv zeta.
  assert (Hd : forall p, managerPhoneAfter qs = Some p ->
                         forallb isDigit (list_ascii_of_string p) = true).
  { intros p Hp. apply (managerPhone_digits_from qs None); [discriminate|exact Hp]. }
  destruct (managerPhoneAfter qs) as [[|c r]|].
  - unfold contactManagerOnWhatsApp. simpl. repeat split; try discriminate.
    + intros url [H|[]]. discriminate.
    + intros _. eexists. left. reflexivity.
  - assert (Hp : forallb isDigit (list_ascii_of_string (String c r)) = true)
      by (apply Hd; reflexivity).
    unfold contactManagerOnWhatsApp.
    change (JS.truthy (Some (String c r))) with true.
    change (JS.interpolate (Some (String c r))) with (String c r).
    cbn [negb].
    assert (Hurl : forall u url rest,
               (forall v, ~ In (OpenedURL v) rest) ->
               u = appUrl enc (String c r) message \/
               u = webUrl enc (String c r) message ->
               In (OpenedURL url) (OpenedURL u :: rest) ->
               exists p, Some (String c r) = Some p /\ p <> EmptyString /\
                         forallb isDigit (list_ascii_of_string p) = true /\
                         (url = appUrl enc p message \/
                          url = webUrl enc p message)).
    { intros u url rest Hrest Hu Hin.
      rewrite (opened_url_of_actions u url rest Hrest Hin).
      exists (String c r). repeat split; [discriminate|exact Hp|exact Hu]. }
    destruct (canOpenURL env) as [[|]|]; destruct (openURL env);
      (split; [|split; [discriminate|split; [discriminate|]]]).
    + intros url. apply Hurl; [intros v []|auto].
    + intros Hno. exfalso. apply Hno. eexists. reflexivity.
    + intros url. apply Hurl; [apply no_url_in_alert|auto].
    + intros _. eexists. right. left. reflexivity.
    + intros url. apply Hurl; [intros v []|auto].
    + intros Hno. exfalso. apply Hno. eexists. reflexivity.
    + intros url. apply Hurl; [apply no_url_in_alert|auto].
    + intros _. eexists. right. left. reflexivity.
    + intros url Hu. exfalso. exact (no_url_in_alert _ _ Hu).
    + intros _. eexists. left. reflexivity.
    + intros url Hu. exfalso. exact (no_url_in_alert _ _ Hu).
    + intros _. eexists. left. reflexivity.
  - unfold contactManagerOnWhatsApp. simpl. repeat split; try discriminate.
    + intros url [H|[]]. discriminate.
    + intros _. eexists. left. reflexivity.
Qed.

(** ** What the fetch returns *)

Lemma select_user_rows_iff (t : Store.table) (dates : list string)
    (n p : option string) (r : AvailableTimeSlot) :
  In r (Store.select_user_rows t dates n p) <->
  In r t /\ Store.in_dates dates r = true /\ is_available r = false /\
  serverFilter n p r = true.
Proof.
  unfold Store.select_user_rows, serverFilter. rewrite sort_In.
  destruct (JS.truthy n), (JS.truthy p); simpl;
    rewrite ?filter_In, ?andb_true_iff, ?negb_true_iff, ?orb_false_r;
    tauto.
Qed.









(** With a phone and no name, a row is returned only when its stored phone
    is the user's trimmed phone, character for character: a stored phone
    with spaces around it is not found, although the exact test would
    accept it. *)
Theorem fetch_by_phone_is_exact :
  forall (queryError : bool) (t : Store.table) (dates : list string)
         (n p : option string) (l : list AvailableTimeSlot)
         (r : AvailableTimeSlot),
    JS.truthy n = false ->
    getUserAppointmentsForMultipleDates queryError t dates n p = Some l ->
    In r l ->
    JS.truthy p = true ->
    In r t /\ Store.in_dates dates r = true /\ is_available r = false /\
    client_phone r = Some (JS.trim (JS.interpolate p)).
Proof.
  intros qe t dates n p l r Hn Hl Hr Hp.
  unfold getUserAppointmentsForMultipleDates in Hl.
  destruct qe; [discriminate|]. injection Hl as <-.
  rewrite Hn, Hp in Hr. simpl in Hr. apply filter_In in Hr.
  destruct Hr as [Hr _]. apply select_user_rows_iff in Hr.
  destruct Hr as (Ht & Hd & Hb & Hs).
  repeat split; try assumption.
  unfold serverFilter in Hs. rewrite Hn, Hp in Hs. simpl in Hs.
  unfold Store.opt_eqb in Hs. destruct (client_phone r); [|discriminate].
  apply String.eqb_eq in Hs. congruence.
Qed.

(** Called with neither a name nor a phone, the function filters nothing:
    it returns every booked row of the requested dates, whose ever it is. *)
Theorem fetch_without_identity_returns_all :
  forall (t : Store.table) (dates : list string) (n p : option string)
         (r : AvailableTimeSlot),
    JS.truthy n = false ->
    JS.truthy p = false ->
    exists l, getUserAppointmentsForMultipleDates false t dates n p = Some l /\
      (In r l <->
       In r t /\ Store.in_dates dates r = true /\ is_available r = false).
Proof.
  intros t dates n p r Hn Hp.
  unfold getUserAppointmentsForMultipleDates. eexists. split; [reflexivity|].
  rewrite Hn, Hp. simpl. rewrite select_user_rows_iff.
  unfold serverFilter. rewrite Hn, Hp. simpl. tauto.
Qed.

(** ** Loads that fail *)

(** A load without an identity, or whose query fails, keeps the list that
    the screen has; every load ends with its own progress flag cleared and
    touches neither the other flag, nor the dialogs, nor the selection. *)
Theorem load_failure_keeps_list :
  forall (LocalTZA : Z) (isRefresh : bool) (user : option User) (now : Z)
         (queryError : bool) (t : Store.table) (st : ScreenState),
    let st' := loadUserAppointments LocalTZA isRefresh user now queryError t st in
    (noIdentity user \/ queryError = true ->
     userAppointments st' = userAppointments st) /\
    (if isRefresh
     then refreshing st' = false /\ isLoading st' = isLoading st
     else isLoading st' = false /\ refreshing st' = refreshing st) /\
    showCancelModal st' = showCancelModal st /\
    showLateCancelModal st' = showLateCancelModal st /\
    selectedAppointment st' = selectedAppointment st /\
    alerts st' = alerts st.
Proof.
  intros tza isRefresh user now qe t st st'. unfold st', loadUserAppointments.
  destruct (negb (JS.truthy (user_name user)) && negb (JS.truthy (user_phone user)))
    eqn:E.
  - destruct isRefresh; simpl; repeat split; reflexivity.
  - destruct qe.
    + simpl. destruct isRefresh; simpl; repeat split; reflexivity.
    + simpl. split.
      * intros [[H1 H2]|H]; [|discriminate].
        rewrite H1, H2 in E. discriminate.
      * destruct isRefresh; simpl; repeat split; reflexivity.
Qed.

(** ** The conditional update *)

Lemma update_cancel_row (sid : string) (r : AvailableTimeSlot) :
  let f := fun r => if String.eqb (id r) sid && negb (is_available r)
                    then Store.freed r else r in
  id (f r) = id r /\ slot_date (f r) = slot_date r /\
  slot_time (f r) = slot_time r /\ f (f r) = f r /\
  (id r = sid -> is_available (f r) = true) /\
  (id r <> sid -> f r = r).
Proof.
  simpl. destruct (String.eqb (id r) sid) eqn:Eb;
    destruct (is_available r) eqn:Ea; simpl;
    repeat split; simpl; rewrite ?Eb, ?Ea; simpl; try reflexivity;
    intros H; try congruence;
    first [apply String.eqb_eq in Eb | apply String.eqb_neq in Eb];
    congruence.
Qed.

(** The update of a cancel frees the rows of the given id and nothing else:
    the rows keep their number, order, ids, dates and times, every row of
    that id is available afterwards, the rows of other ids are untouched,
    and a second update changes nothing more. *)
Theorem update_cancel_frees_only_that_id :
  forall (t : Store.table) (slotId : string),
    let t' := Store.update_cancel t slotId in
    map id t' = map id t /\
    map slot_date t' = map slot_date t /\
    map slot_time t' = map slot_time t /\
    (forall r, In r t' -> id r = slotId -> is_available r = true) /\
    filter (fun r => negb (String.eqb (id r) slotId)) t'
      = filter (fun r => negb (String.eqb (id r) slotId)) t /\
    Store.update_cancel t' slotId = t'.
Proof.
  intros t sid t'. unfold t', Store.update_cancel.
  set (f := fun r => if String.eqb (id r) sid && negb (is_available r)
                     then Store.freed r else r).
  assert (Hf : forall r, id (f r) = id r /\ slot_date (f r) = slot_date r /\
                         slot_time (f r) = slot_time r /\ f (f r) = f r /\
                         (id r = sid -> is_available (f r) = true) /\
                         (id r <> sid -> f r = r))
    by (intros r; apply (update_cancel_row sid r)).
  split; [|split; [|split; [|split; [|split]]]].
  - rewrite map_map. apply map_ext. intros r. apply Hf.
  - rewrite map_map. apply map_ext. intros r. apply Hf.
  - rewrite map_map. apply map_ext. intros r. apply Hf.
  - intros r Hr Hid. apply in_map_iff in Hr. destruct Hr as (x & <- & _).
    destruct (Hf x) as (Ei & _ & _ & _ & Ha & _). apply Ha. congruence.
  - induction t as [|x t IH]; [reflexivity|]. simpl.
    destruct (Hf x) as (Ei & _ & _ & _ & _ & Hne). rewrite Ei.
    destruct (String.eqb_spec (id x) sid) as [E|E]; simpl; [exact IH|].
    rewrite (Hne E), IH. reflexivity.
  - rewrite map_map. apply map_ext. intros r.
    destruct (Hf r) as (_ & _ & _ & H & _). exact H.
Qed.

(** ** Cancels that fail *)

(** When the lookup answers with an error, when no row or more than one row
    has the id, or when the update answers with an error, the operation
    returns false and has changed nothing: the store is as it was and no
    notification was sent. *)
Theorem cancel_failure_changes_nothing :
  forall (env : Env) (slotId : string) (w : World),
    selectError env = true \/
    Store.select_single (table w) slotId = None \/
    updateError env = true ->
    cancelAppointment env slotId w = (Returned false, w).
Proof.
  intros env sid w H.
  unfold cancelAppointment, tryCatch, bind, selectSingle, updateCancel, ret.
  destruct (selectError env) eqn:Es; [reflexivity|].
  destruct (Store.select_single (table w) sid) as [row|] eqn:Er; [|reflexivity].
  destruct H as [H|[H|H]]; try discriminate.
  simpl. rewrite H. reflexivity.
Qed.

Lemma cancelAppointment_cases (env : Env) (slotId : string) (w : World) :
  exists (b : bool) (w' : World),
    cancelAppointment env slotId w = (Returned b, w') /\
    (table w' = table w \/
     table w' = Store.update_cancel (table w) slotId) /\
    (exists more, emitted w' = emitted w ++ more).
Proof.
  unfold cancelAppointment, tryCatch, bind, selectSingle, updateCancel, emit, ret.
  destruct (selectError env).
  { exists false, w. repeat split; auto. exists []. symmetry. apply app_nil_r. }
  destruct (Store.select_single (table w) slotId) as [row|].
  2:{ exists false, w. repeat split; auto. exists []. symmetry. apply app_nil_r. }
  simpl. destruct (updateError env).
  { exists false, w. repeat split; auto. exists []. symmetry. apply app_nil_r. }
  simpl. destruct (slotWaitlist env); simpl.
  - destruct (serviceWaitlist env); simpl; eexists _, _;
      (split; [reflexivity|]); simpl; (split; [auto|]);
      rewrite <- app_assoc; eauto.
  - eexists _, _. split; [reflexivity|]. simpl. split; [auto|]. eauto.
Qed.

(** A confirmed cancel always settles.  Without a selection nothing
    happens.  With one, the busy flag is cleared at the end, the only change
    the store can see is the update of the selected id, the trace of
    notifications only grows, and the screen is in one of two states: the
    record is gone from the list with the dialog closed and the selection
    dropped, or the list, the dialog and the selection are as they were and
    one alert was added. *)
Theorem confirm_cancel_settles :
  forall (env : Env) (user : option User) (st : ScreenState) (w : World),
    let after := confirmCancelAppointment env user st w in
    (selectedAppointment st = None -> after = (st, w)) /\
    (forall selected, selectedAppointment st = Some selected ->
       isCanceling (fst after) = false /\
       (table (snd after) = table w \/
        table (snd after) = Store.update_cancel (table w) (id selected)) /\
       (exists more, emitted (snd after) = emitted w ++ more) /\
       ((userAppointments (fst after) =
           filter (fun apt => negb (String.eqb (id apt) (id selected)))
                  (userAppointments st) /\
         showCancelModal (fst after) = false /\
         selectedAppointment (fst after) = None /\
         alerts (fst after) = alerts st)
        \/
        (userAppointments (fst after) = userAppointments st /\
         showCancelModal (fst after) = showCancelModal st /\
         selectedAppointment (fst after) = Some selected /\
         alerts (fst after) = alerts st ++ [couldNotCancel]))).
Proof.
  intros env user st w after. unfold after, confirmCancelAppointment.
  split; [intros ->; reflexivity|].
  intros sel Hsel. rewrite Hsel.
  destruct (cancelAppointment_cases env (id sel) w)
    as (b & w' & E & Ht & more & Hm).
  rewrite E. destruct b; simpl.
  - split; [reflexivity|]. split; [|split].
    + destruct (adminNotifier env); simpl; exact Ht.
    + destruct (adminNotifier env); simpl; rewrite Hm, <- app_assoc; eauto.
    + left. repeat split.
  - split; [reflexivity|]. split; [exact Ht|]. split; [eauto|].
    right. rewrite Hsel. repeat split.
Qed.

(** ** A cancel and the fetch after it *)

Lemma fetched_iff (t : Store.table) (dates : list string) (n p : option string)
    (l : list AvailableTimeSlot) (r : AvailableTimeSlot) :
  getUserAppointmentsForMultipleDates false t dates n p = Some l ->
  (In r l <->
   (In r t /\ is_available r = false) /\
   Store.in_dates dates r = true /\ serverFilter n p r = true /\
   (JS.truthy n || JS.truthy p = true ->
    nameMatch n r || phoneMatch p r = true)).
Proof.
  unfold getUserAppointmentsForMultipleDates. intros H. injection H as <-.
  destruct (JS.truthy n || JS.truthy p) eqn:E.
  - rewrite filter_In, select_user_rows_iff. tauto.
  - rewrite select_user_rows_iff. intuition discriminate.
Qed.

Lemma update_cancel_booked (t : Store.table) (slotId : string)
    (r : AvailableTimeSlot) :
  In r (Store.update_cancel t slotId) /\ is_available r = false <->
  (In r t /\ is_available r = false) /\ id r <> slotId.
Proof.
  unfold Store.update_cancel. rewrite in_map_iff. split.
  - intros [(x & Ex & Hx) Hb].
    destruct (String.eqb_spec (id x) slotId) as [E|E]; simpl in Ex.
    + destruct (is_available x) eqn:Ea; simpl in Ex; subst r.
      * congruence.
      * discriminate.
    + subst r. auto.
  - intros [[Hr Hb] Hne]. split; [|exact Hb].
    exists r. split; [|exact Hr].
    apply String.eqb_neq in Hne. rewrite Hne. reflexivity.
Qed.

(** Taking the cancelled record out of the list, as a successful cancel
    does, gives the records that a new fetch from the updated store would
    return: when the list was fetched from the store, a fetch with the same
    dates and identity after the update returns the records of the list
    whose id is not the cancelled one, and no others. *)
Theorem local_removal_matches_refetch :
  forall (t : Store.table) (dates : list string) (n p : option string)
         (l : list AvailableTimeSlot) (slotId : string),
    getUserAppointmentsForMultipleDates false t dates n p = Some l ->
    exists l',
      getUserAppointmentsForMultipleDates false
        (Store.update_cancel t slotId) dates n p = Some l' /\
      forall r, In r l' <->
                In r (filter (fun apt => negb (String.eqb (id apt) slotId)) l).
Proof.
  intros t dates n p l sid Hl.
  destruct (getUserAppointmentsForMultipleDates false
              (Store.update_cancel t sid) dates n p) as [l'|] eqn:Hl';
    [|discriminate].
  exists l'. split; [reflexivity|]. intros r.
  rewrite (fetched_iff _ _ _ _ _ r Hl'), filter_In, (fetched_iff _ _ _ _ _ r Hl).
  rewrite update_cancel_booked, negb_true_iff, String.eqb_neq. tauto.
Qed.

(** ** The dates of a load *)

(** For an instant with four-digit years around it, a load asks for 22
    different dates: the UTC calendar dates from 7 days before to 14 days
    after the UTC date of the instant, in order, each one a date that
    [new Date] reads back as that day. *)
Theorem load_asks_for_22_consecutive_dates :
  forall (LocalTZA now : Z),
    fourDigitYears now ->
    List.length (loadDates LocalTZA now) = 22%nat /\
    NoDup (loadDates LocalTZA now) /\
    forall k : nat, (k < 22)%nat ->
      exists d,
        nth_error (loadDates LocalTZA now) k = Some d /\
        d = isoDateOfDay (JSDate.Day now - 7 + Z.of_nat k) /\
        JSDate.parse LocalTZA d
          = Some ((JSDate.Day now - 7 + Z.of_nat k) * JSDate.msPerDay).
Proof.
  intros tza now Hy.
  destruct (loadDates_window tza now) as (Eq & Hlen & _).
  split; [exact Hlen|]. split; [exact (loadDates_NoDup tza now Hy)|].
  intros k Hk. rewrite Eq. unfold loadOffsets. rewrite map_map.
  rewrite nth_error_map, nth_error_seq by exact Hk.
  replace (k <? 22)%nat with true by (symmetry; apply Nat.ltb_lt; exact Hk).
  simpl. eexists. split; [reflexivity|].
  replace (JSDate.Day now + (Z.of_nat k - 7)) with (JSDate.Day now - 7 + Z.of_nat k)
    by lia.
  split; [reflexivity|].
  destruct Hy as [Hlo Hhi]. apply parse_isoDateOfDay. lia.
Qed.

(** ** Whether there is a next appointment *)

(** There is no next appointment exactly when there is no upcoming one, and
    a next appointment is always one of the upcoming ones, also when some
    date-times are invalid. *)
Theorem next_absent_iff_no_upcoming :
  forall (LocalTZA : Z) (up : list AvailableTimeSlot),
    (nextAppointment LocalTZA up = None <-> up = []) /\
    (forall r, nextAppointment LocalTZA up = Some r -> In r up) /\
    (up = [] -> displayedUpcomingAppointments LocalTZA up = []).
Proof.
  intros tza up. split; [apply nextAppointment_None|].
  split; [intros r; apply nextAppointment_In|].
  intros ->. reflexivity.
Qed.

(** ** Instances of the further properties *)

Import Cases.

Lemma nextAppointment_least_witness :
  (forall a, In a [noon; morning] -> nextDateTime twoHoursEast a <> None) /\
  nextAppointment twoHoursEast [noon; morning] = Some morning /\
  exists tr, nextDateTime twoHoursEast morning = Some tr /\
    forall a, In a [noon; morning] ->
    exists ta, nextDateTime twoHoursEast a = Some ta /\ tr <= ta.
Proof.
  assert (Hv : forall a, In a [noon; morning] ->
                         nextDateTime twoHoursEast a <> None)
    by (intros a [<-|[<-|[]]]; discriminate).
  split; [exact Hv|]. split; [reflexivity|].
  exact (nextAppointment_least twoHoursEast [noon; morning] Hv morning eq_refl).
Defined.

Lemma nextAppointment_first_earliest_witness :
  (forall a, In a [noon; morning; lastWeek] ->
             nextDateTime twoHoursEast a <> None) /\
  nextAppointment twoHoursEast [noon; morning; lastWeek] = Some lastWeek /\
  exists l1 l2 tr,
    [noon; morning; lastWeek] = l1 ++ lastWeek :: l2 /\
    nextDateTime twoHoursEast lastWeek = Some tr /\
    forall a, In a l1 ->
    exists ta, nextDateTime twoHoursEast a = Some ta /\ tr < ta.
Proof.
  assert (Hv : forall a, In a [noon; morning; lastWeek] ->
                         nextDateTime twoHoursEast a <> None)
    by (intros a [<-|[<-|[<-|[]]]]; discriminate).
  split; [exact Hv|]. split; [reflexivity|].
  exact (nextAppointment_first_earliest twoHoursEast [noon; morning; lastWeek]
           lastWeek Hv eq_refl).
Defined.

Lemma upcoming_ids_distinct : NoDup (map id [noon; morning; evening]).
Proof.
  repeat constructor; simpl; intros H;
    repeat (destruct H as [H|H]; [discriminate|]); exact H.
Defined.

Lemma hero_and_list_cover_upcoming_witness :
  NoDup (map id [noon; morning; evening]) /\
  nextAppointment twoHoursEast [noon; morning; evening] = Some morning /\
  (List.length (displayedUpcomingAppointments twoHoursEast [noon; morning; evening])
   + 1 = 3)%nat.
Proof.
  split; [exact upcoming_ids_distinct|]. split; [reflexivity|].
  exact (proj2 (proj2 (hero_and_list_cover_upcoming twoHoursEast
                         [noon; morning; evening] morning
                         upcoming_ids_distinct eq_refl))).
Defined.

Lemma window_never_reopens_witness :
  fifthOfMarch + 4 * JSDate.msPerDay <= fifthOfMarch + 5 * JSDate.msPerDay /\
  isWithin48Hours twoHoursEast morning (fifthOfMarch + 4 * JSDate.msPerDay) = true /\
  isWithin48Hours twoHoursEast morning (fifthOfMarch + 5 * JSDate.msPerDay) = true.
Proof.
  assert (Hle : fifthOfMarch + 4 * JSDate.msPerDay
                <= fifthOfMarch + 5 * JSDate.msPerDay)
    by (vm_compute; discriminate).
  split; [exact Hle|]. split; [reflexivity|].
  exact (window_never_reopens twoHoursEast morning _ _ Hle eq_refl).
Defined.

Lemma window_reads_formatted_time_witness :
  slot_time morning = Some "09:00:00"%string /\
  colonFree "09:00:00" = false /\
  formatTime (slot_time morning) = "09:00"%string /\
  appointmentDateTime twoHoursEast morning =
    JSDate.parse twoHoursEast
      (JS.interpolate (slot_date morning) ++ "T"
         ++ formatTime (slot_time morning))%string.
Proof.
  split; [reflexivity|]. split; [reflexivity|]. split; [reflexivity|].
  exact (window_reads_formatted_time twoHoursEast morning "09:00:00"
           eq_refl eq_refl).
Defined.


Lemma fetch_by_phone_is_exact_witness :
  JS.truthy None = false /\
  getUserAppointmentsForMultipleDates false [evening; noon]
    ["2024-03-12"%string] None (Some " 0521112233 "%string) = Some [evening] /\
  In evening [evening] /\
  JS.truthy (Some " 0521112233 "%string) = true /\
  client_phone evening = Some "0521112233"%string.
Proof.
  split; [reflexivity|]. split; [reflexivity|]. split; [left; reflexivity|].
  split; [reflexivity|].
  exact (proj2 (proj2 (proj2
           (fetch_by_phone_is_exact false [evening; noon] ["2024-03-12"%string]
              None (Some " 0521112233 "%string) [evening] evening
              eq_refl eq_refl (or_introl eq_refl) eq_refl)))).
Defined.

Lemma fetch_without_identity_returns_all_witness :
  JS.truthy None = false /\
  JS.truthy (Some ""%string) = false /\
  exists l,
    getUserAppointmentsForMultipleDates false [evening; noon]
      ["2024-03-12"%string] None (Some ""%string) = Some l /\
    (In evening l <->
     In evening [evening; noon] /\
     Store.in_dates ["2024-03-12"%string] evening = true /\
     is_available evening = false).
Proof.
  split; [reflexivity|]. split; [reflexivity|].
  exact (fetch_without_identity_returns_all [evening; noon]
           ["2024-03-12"%string] None (Some ""%string) evening eq_refl eq_refl).
Defined.

Lemma cancel_failure_changes_nothing_witness :
  selectError lookupFails = true /\
  cancelAppointment lookupFails "a1" bookedWorld = (Returned false, bookedWorld).
Proof.
  split; [reflexivity|].
  exact (cancel_failure_changes_nothing lookupFails "a1" bookedWorld
           (or_introl eq_refl)).
Defined.

Lemma local_removal_matches_refetch_witness :
  getUserAppointmentsForMultipleDates false [morning; noon]
    ["2024-03-10"%string] (Some "Noa Levi"%string) None = Some [morning; noon] /\
  exists l',
    getUserAppointmentsForMultipleDates false
      (Store.update_cancel [morning; noon] "m") ["2024-03-10"%string]
      (Some "Noa Levi"%string) None = Some l' /\
    forall r, In r l' <->
      In r (filter (fun apt => negb (String.eqb (id apt) "m")) [morning; noon]).
Proof.
  split; [reflexivity|].
  exact (local_removal_matches_refetch [morning; noon] ["2024-03-10"%string]
           (Some "Noa Levi"%string) None [morning; noon] "m" eq_refl).
Defined.

Lemma fifthOfMarch_fourDigitYears : fourDigitYears fifthOfMarch.
Proof. split; vm_compute; [discriminate|reflexivity]. Defined.

Lemma load_asks_for_22_consecutive_dates_witness :
  fourDigitYears fifthOfMarch /\
  JSDate.parse twoHoursEast "2024-03-05T08:00" = Some fifthOfMarch /\
  List.length (loadDates twoHoursEast fifthOfMarch) = 22%nat /\
  NoDup (loadDates twoHoursEast fifthOfMarch).
Proof.
  split; [exact fifthOfMarch_fourDigitYears|]. split; [reflexivity|].
  destruct (load_asks_for_22_consecutive_dates twoHoursEast fifthOfMarch
              fifthOfMarch_fourDigitYears) as (Hl & Hn & _).
  split; [exact Hl|exact Hn].
Defined.

Lemma cancel_success_emissions_witness :
  selectedAppointment selected = Some booked /\
  Store.select_single (table bookedWorld) (id booked) = Some booked /\
  selectError fine = false /\ updateError fine = false /\
  slotWaitlist fine = Resolved /\ serviceWaitlist fine = Resolved /\
  adminNotifier fine = Rejected /\
  fst (cancelAppointment fine (id booked) bookedWorld) = Returned true /\
  table (snd (confirmCancelAppointment fine dana selected bookedWorld))
    = Store.update_cancel (table bookedWorld) (id booked).
Proof.
  do 7 (split; [reflexivity|]).
  destruct (cancel_success_emissions fine dana selected bookedWorld booked booked
              eq_refl eq_refl eq_refl eq_refl eq_refl eq_refl)
    as (Hr & _ & Ht & _).
  split; [exact Hr|exact Ht].
Defined.

Lemma morning_belongsTo_client : belongsTo client morning.
Proof.
  left. exists "Noa Levi"%string, "Noa Levi"%string.
  repeat split; discriminate.
Defined.

Lemma partition_of_loaded_witness :
  fourDigitYears fifthOfMarch /\
  In morning
     (userAppointments
        (loadUserAppointments twoHoursEast false client fifthOfMarch false
           [morning; evening] initialState)) /\
  belongsTo client morning /\
  (let v := classify twoHoursEast client fifthOfMarch
              (userAppointments
                 (loadUserAppointments twoHoursEast false client fifthOfMarch
                    false [morning; evening] initialState)) in
   (In morning (upcoming v) /\ ~ In morning (past v)) \/
   (~ In morning (upcoming v) /\ In morning (past v))).
Proof.
  assert (Hin : In morning
     (userAppointments
        (loadUserAppointments twoHoursEast false client fifthOfMarch false
           [morning; evening] initialState))) by (vm_compute; left; reflexivity).
  split; [exact fifthOfMarch_fourDigitYears|]. split; [exact Hin|].
  split; [exact morning_belongsTo_client|].
  exact (partition_of_loaded twoHoursEast false client fifthOfMarch fifthOfMarch
           [morning; evening] initialState morning
           fifthOfMarch_fourDigitYears Hin morning_belongsTo_client).
Defined.
